(** * qiling.os.utils: a shallow embedding of [QlOsUtils]

    The development follows [src/qiling/os/utils.py]:
    - Python text ([str]) is a list of Unicode code points, Python [bytes]
      a list of byte values, both carried by [Z];
    - the dictionaries [syscalls] and [appeared_strings] are [gmap]s, the
      position sets are [gset]s;
    - the methods that touch guest memory, the guest heap or the CPU are
      written in a small state-and-exception monad over the emulator state. *)

From Stdlib Require Import ZArith List Lia String Ascii.
From stdpp Require Import gmap strings list fin_maps.

Local Open Scope Z_scope.

(** ** Python text and bytes *)

Module Py.

(** [str "abc"] is the Python text with the same (Latin-1) characters. *)
Definition str (s : string) : list Z :=
  (λ a, Z.of_N (N_of_ascii a)) <$> list_ascii_of_string s.

(** [s.startswith(p)] *)
Fixpoint startswith (p s : list Z) : bool :=
  match p, s with
  | [], _ => true
  | _ :: _, [] => false
  | a :: p', b :: s' => (a =? b) && startswith p' s'
  end.

(** [s.split(sep)] for a separator of one character. *)
Fixpoint split (sep : Z) (s : list Z) : list (list Z) :=
  match s with
  | [] => [[]]
  | c :: s' =>
      if c =? sep then [] :: split sep s'
      else match split sep s' with
           | [] => [[c]]
           | tok :: toks => (c :: tok) :: toks
           end
  end.

(** [s.replace(old, new)]: every occurrence of [old], found from left to
    right without overlap, becomes [new].  [skip] counts the characters
    of an occurrence that are still to be dropped. *)
Fixpoint replace_from (skip : nat) (old new s : list Z) : list Z :=
  match s with
  | [] => []
  | c :: s' =>
      match skip with
      | S k => replace_from k old new s'
      | O =>
          if startswith old s
          then new ++ replace_from (Nat.pred (length old)) old new s'
          else c :: replace_from O old new s'
      end
  end.

(** [old] is never empty where the source calls [replace]. *)
Definition replace (old new s : list Z) : list Z := replace_from O old new s.

(** [s.count(c)] for a separator of one character. *)
Definition count (c : Z) (s : list Z) : nat :=
  length (filter (λ x, x = c) s).

End Py.

(** ** Codecs of the Python runtime *)

Module Codec.

Definition is_cont (b : Z) : bool := (0x80 <=? b) && (b <? 0xC0).

(** Second byte refused after a three-byte lead. *)
Definition bad_second3 (b0 b1 : Z) : bool :=
  negb (is_cont b1) || (if b1 <? 0xA0 then b0 =? 0xE0 else b0 =? 0xED).

(** Second byte refused after a four-byte lead. *)
Definition bad_second4 (b0 b1 : Z) : bool :=
  negb (is_cont b1) || (if b1 <? 0x90 then b0 =? 0xF0 else b0 =? 0xF4).

Definition cp2 (b0 b1 : Z) : Z :=
  Z.lor (Z.shiftl (Z.land b0 0x1F) 6) (Z.land b1 0x3F).

Definition cp3 (b0 b1 b2 : Z) : Z :=
  Z.lor (Z.shiftl (Z.land b0 0x0F) 12)
        (Z.lor (Z.shiftl (Z.land b1 0x3F) 6) (Z.land b2 0x3F)).

Definition cp4 (b0 b1 b2 b3 : Z) : Z :=
  Z.lor (Z.shiftl (Z.land b0 0x07) 18)
        (Z.lor (Z.shiftl (Z.land b1 0x3F) 12)
               (Z.lor (Z.shiftl (Z.land b2 0x3F) 6) (Z.land b3 0x3F))).

(** [bytes.decode(errors="ignore")]: UTF-8, the default encoding.  An
    invalid start byte is dropped alone; a sequence broken by a bad
    continuation byte loses the bytes read so far and decoding resumes at
    the offending byte; a sequence cut by the end of the input is dropped
    up to the end. *)
Fixpoint decode_ignore (bs : list Z) : list Z :=
  match bs with
  | [] => []
  | b0 :: r0 =>
      if b0 <? 0x80 then b0 :: decode_ignore r0
      else if b0 <? 0xC2 then decode_ignore r0
      else if b0 <? 0xE0 then
        match r0 with
        | [] => []
        | b1 :: r1 =>
            if is_cont b1 then cp2 b0 b1 :: decode_ignore r1
            else decode_ignore r0
        end
      else if b0 <? 0xF0 then
        match r0 with
        | [] => []
        | b1 :: r1 =>
            if bad_second3 b0 b1 then decode_ignore r0
            else match r1 with
                 | [] => []
                 | b2 :: r2 =>
                     if is_cont b2 then cp3 b0 b1 b2 :: decode_ignore r2
                     else decode_ignore r1
                 end
        end
      else if b0 <? 0xF5 then
        match r0 with
        | [] => []
        | b1 :: r1 =>
            if bad_second4 b0 b1 then decode_ignore r0
            else match r1 with
                 | [] => []
                 | b2 :: r2 =>
                     if negb (is_cont b2) then decode_ignore r1
                     else match r2 with
                          | [] => []
                          | b3 :: r3 =>
                              if is_cont b3
                              then cp4 b0 b1 b2 b3 :: decode_ignore r3
                              else decode_ignore r2
                          end
                 end
        end
      else decode_ignore r0
  end.

Definition is_surrogate (c : Z) : bool := (0xD800 <=? c) && (c <? 0xE000).

(** UTF-8 encoding of one code point; [None] where Python raises
    [UnicodeEncodeError] (a lone surrogate). *)
Definition utf8_char (c : Z) : option (list Z) :=
  if c <? 0x80 then Some [c]
  else if c <? 0x800 then
    Some [Z.lor 0xC0 (Z.shiftr c 6); Z.lor 0x80 (Z.land c 0x3F)]
  else if is_surrogate c then None
  else if c <? 0x10000 then
    Some [Z.lor 0xE0 (Z.shiftr c 12);
          Z.lor 0x80 (Z.land (Z.shiftr c 6) 0x3F);
          Z.lor 0x80 (Z.land c 0x3F)]
  else
    Some [Z.lor 0xF0 (Z.shiftr c 18);
          Z.lor 0x80 (Z.land (Z.shiftr c 12) 0x3F);
          Z.lor 0x80 (Z.land (Z.shiftr c 6) 0x3F);
          Z.lor 0x80 (Z.land c 0x3F)].

(** UTF-16LE encoding of one code point. *)
Definition utf16le_char (c : Z) : option (list Z) :=
  if is_surrogate c then None
  else if c <? 0x10000 then Some [Z.land c 0xFF; Z.shiftr c 8]
  else
    let v := c - 0x10000 in
    let hi := Z.lor 0xD800 (Z.shiftr v 10) in
    let lo := Z.lor 0xDC00 (Z.land v 0x3FF) in
    Some [Z.land hi 0xFF; Z.shiftr hi 8; Z.land lo 0xFF; Z.shiftr lo 8].

Inductive encoding := utf_8 | utf_16le.

Definition encode_char (enc : encoding) : Z → option (list Z) :=
  match enc with utf_8 => utf8_char | utf_16le => utf16le_char end.

(** [s.encode(enc)] *)
Fixpoint encode (enc : encoding) (s : list Z) : option (list Z) :=
  match s with
  | [] => Some []
  | c :: s' =>
      match encode_char enc c, encode enc s' with
      | Some bs, Some bs' => Some (bs ++ bs')
      | _, _ => None
      end
  end.

End Codec.

(** ** The IOCTL control code *)

(** The local function [ioctl_code] of [QlOsUtils.ioctl]. *)
Definition ioctl_code (DeviceType Function Method Access : Z) : Z :=
  Z.lor (Z.lor (Z.lor (Z.shiftl DeviceType 16) (Z.shiftl Access 14))
               (Z.shiftl Function 2))
        Method.

(** ** The call ledger and the string index *)

(** Values that hooks hand over as parameters and return values. *)
Inductive pyval :=
| PyNone
| PyInt (n : Z)
| PyStr (s : list Z)
| PyBytes (b : list Z).

Record CallRecord := {
  params : list (list Z * pyval);
  retval : pyval;
  address : Z;
  retaddr : Z;
  position : Z
}.

(** The three attributes that [QlOsUtils.__init__] sets up. *)
Record QlOsUtils := {
  syscalls : gmap (list Z) (list CallRecord);
  syscalls_counter : Z;
  appeared_strings : gmap (list Z) (gset Z)
}.

Definition init : QlOsUtils :=
  {| syscalls := ∅; syscalls_counter := 0; appeared_strings := ∅ |}.

Definition clear_syscalls (self : QlOsUtils) : QlOsUtils :=
  {| syscalls := ∅; syscalls_counter := 0; appeared_strings := ∅ |}.

(** [name[5:]] when [name] starts with ['hook_']. *)
Definition strip_hook (name : list Z) : list Z :=
  if Py.startswith (Py.str "hook_") name then drop 5 name else name.

(** One call of [_call_api], its arguments packed for folding. *)
Record api_call := {
  c_address : Z;
  c_name : list Z;
  c_params : list (list Z * pyval);
  c_retval : pyval;
  c_retaddr : Z
}.

Definition _call_api (address : Z) (name : list Z)
    (params : list (list Z * pyval)) (retval : pyval) (retaddr : Z)
    (self : QlOsUtils) : QlOsUtils :=
  let name := strip_hook name in
  let entry := {| params := params; retval := retval; address := address;
                  retaddr := retaddr; position := syscalls_counter self |} in
  {| syscalls :=
       <[name := default [] (syscalls self !! name) ++ [entry]]> (syscalls self);
     syscalls_counter := syscalls_counter self + 1;
     appeared_strings := appeared_strings self |}.

Definition record (self : QlOsUtils) (c : api_call) : QlOsUtils :=
  _call_api (c_address c) (c_name c) (c_params c) (c_retval c) (c_retaddr c) self.

(** [setdefault(token, set()).add(counter)] for every token of [s.split(' ')]. *)
Definition add_token (counter : Z) (idx : gmap (list Z) (gset Z)) (token : list Z)
    : gmap (list Z) (gset Z) :=
  <[token := default ∅ (idx !! token) ∪ {[counter]}]> idx.

Definition string_appearance (s : list Z) (self : QlOsUtils) : QlOsUtils :=
  {| syscalls := syscalls self;
     syscalls_counter := syscalls_counter self;
     appeared_strings :=
       foldl (add_token (syscalls_counter self)) (appeared_strings self)
             (Py.split 32 s) |}.

(** [enumerate(l, start)] *)
Fixpoint enumerate {A} (start : Z) (l : list A) : list (Z * A) :=
  match l with
  | [] => []
  | x :: l' => (start, x) :: enumerate (start + 1) l'
  end.

(** The record that the call [c] leaves in the ledger when the counter
    stands at [k]. *)
Definition entry_of (k : Z) (c : api_call) : CallRecord :=
  {| params := c_params c; retval := c_retval c; address := c_address c;
     retaddr := c_retaddr c; position := k |}.

(** The records of the numbered calls that are filed under [name]. *)
Definition entries_named (name : list Z) (calls : list (Z * api_call))
    : list CallRecord :=
  omap (λ '(k, c), if bool_decide (strip_hook (c_name c) = name)
                   then Some (entry_of k c) else None) calls.

(** ** Guest memory *)

Module Mem.

(** [ql.mem]: a byte store; an address never written reads as zero. *)
Definition byte_at (m : gmap Z Z) (a : Z) : Z := default 0 (m !! a).

(** [ql.mem.read(addr, size)] *)
Fixpoint read (m : gmap Z Z) (addr : Z) (size : nat) : list Z :=
  match size with
  | O => []
  | S n => byte_at m addr :: read m (addr + 1) n
  end.

(** [ql.mem.write(addr, data)] *)
Fixpoint write (m : gmap Z Z) (addr : Z) (data : list Z) : gmap Z Z :=
  match data with
  | [] => m
  | b :: data' => write (<[addr := b]> m) (addr + 1) data'
  end.

End Mem.

(** ** The emulator state and its monad *)

(** Exceptions that leave a method. *)
Inductive exn :=
| UcError (errno : Z)
| TypeError
| IndexError
| UnboundLocalError
| ValueError
| UnicodeEncodeError.

(** What a method call ends in; [Diverged] stands for a loop that the
    given fuel did not see end. *)
Inductive outcome (A : Type) :=
| Return (a : A)
| Raise (e : exn)
| Diverged.
Arguments Return {A} a.
Arguments Raise {A} e.
Arguments Diverged {A}.

(** Calls that a method makes on the heap, the memory and the CPU, in the
    order in which it makes them. *)
Inductive event :=
| EAlloc (size addr : Z)
| EFree (addr : Z)
| EWrite (addr : Z) (data : list Z)
| ERun (entry : Z).

Inductive QL_OS := WINDOWS | LINUX | MACOS | FREEBSD | UEFI | DOS.
Inductive QL_ARCH := X86 | X8664 | ARM | ARM64 | MIPS.

#[global] Instance QL_OS_eq_dec : EqDecision QL_OS.
Proof. solve_decision. Defined.
#[global] Instance QL_ARCH_eq_dec : EqDecision QL_ARCH.
Proof. solve_decision. Defined.

(** [ql.loader.driver_object] *)
Record DRIVER_OBJECT := {
  DeviceObject : Z;
  MajorFunction : Z → Z
}.

(** ** Kernel structures and constants *)

(** The constants that the source takes from [qiling.os.windows.wdk_const]:
    two major function codes, two device flags and the four transfer
    methods.  That module is not among the sources, so their values stay
    open. *)
Class wdk_const := {
  IRP_MJ_WRITE : Z;
  IRP_MJ_DEVICE_CONTROL : Z;
  DO_BUFFERED_IO : Z;
  DO_DIRECT_IO : Z;
  METHOD_BUFFERED : Z;
  METHOD_IN_DIRECT : Z;
  METHOD_OUT_DIRECT : Z;
  METHOD_NEITHER : Z
}.

(** The fields of [IRP32]/[IRP64] that the source reads or writes. *)
Record IRP := {
  irp_MdlAddress : Z;
  irp_SystemBuffer : Z;          (* AssociatedIrp.SystemBuffer *)
  irp_Status : Z;                (* IoStatus.Status.Status *)
  irp_Information : Z;           (* IoStatus.Information *)
  irp_UserBuffer : Z;
  irp_irpstack : Z
}.

(** A freshly constructed ctypes structure is zeroed. *)
Definition IRP_new : IRP :=
  {| irp_MdlAddress := 0; irp_SystemBuffer := 0; irp_Status := 0;
     irp_Information := 0; irp_UserBuffer := 0; irp_irpstack := 0 |}.

Definition with_irpstack (v : Z) (i : IRP) : IRP :=
  {| irp_MdlAddress := irp_MdlAddress i; irp_SystemBuffer := irp_SystemBuffer i;
     irp_Status := irp_Status i; irp_Information := irp_Information i;
     irp_UserBuffer := irp_UserBuffer i; irp_irpstack := v |}.
Definition with_SystemBuffer (v : Z) (i : IRP) : IRP :=
  {| irp_MdlAddress := irp_MdlAddress i; irp_SystemBuffer := v;
     irp_Status := irp_Status i; irp_Information := irp_Information i;
     irp_UserBuffer := irp_UserBuffer i; irp_irpstack := irp_irpstack i |}.
Definition with_MdlAddress (v : Z) (i : IRP) : IRP :=
  {| irp_MdlAddress := v; irp_SystemBuffer := irp_SystemBuffer i;
     irp_Status := irp_Status i; irp_Information := irp_Information i;
     irp_UserBuffer := irp_UserBuffer i; irp_irpstack := irp_irpstack i |}.
Definition with_UserBuffer (v : Z) (i : IRP) : IRP :=
  {| irp_MdlAddress := irp_MdlAddress i; irp_SystemBuffer := irp_SystemBuffer i;
     irp_Status := irp_Status i; irp_Information := irp_Information i;
     irp_UserBuffer := v; irp_irpstack := irp_irpstack i |}.

(** The member of the [Parameters] union that the request fills in. *)
Inductive IO_STACK_Parameters :=
| Write (Length : Z)
| DeviceIoControl (OutputBufferLength InputBufferLength IoControlCode
                   Type3InputBuffer : Z).

Record IO_STACK_LOCATION := {
  sl_MajorFunction : Z;
  sl_Parameters : IO_STACK_Parameters
}.

Record MDL := {
  MappedSystemVa : Z;
  StartVa : Z;
  ByteOffset : Z;
  ByteCount : Z
}.

(** The layouts of [qiling.os.windows.structs] for one word size:
    [ctypes.sizeof], [bytes(...)] and [from_buffer] of each structure, the
    [Flags] field of a [DEVICE_OBJECT] image, and the value that a pointer
    field holds after an assignment. *)
Record layout := {
  sizeof_IRP : Z;
  bytes_IRP : IRP → list Z;
  IRP_from_buffer : list Z → IRP;
  sizeof_IO_STACK_LOCATION : Z;
  bytes_IO_STACK_LOCATION : IO_STACK_LOCATION → list Z;
  sizeof_MDL : Z;
  bytes_MDL : MDL → list Z;
  sizeof_DEVICE_OBJECT : Z;
  DEVICE_OBJECT_Flags : list Z → Z;
  POINTER_value : Z → Z
}.

(** The attributes of [ql] that stay fixed during a request. *)
Record config := {
  ostype : QL_OS;
  archtype : QL_ARCH;
  archbit : Z;
  driver_object : DRIVER_OBJECT
}.

(** What [ioctl] returns: a triple, or [None] when the method body falls
    through. *)
Inductive ioctl_result :=
| IoctlNone
| IoctlTriple (status information : option Z) (output_data : option (list Z)).

(** The local variables of [ioctl] that are alive when the guest is entered. *)
Record ioctl_request := {
  r_ctl_method : Z;
  r_irp_addr : Z;
  r_system_buffer_addr : Z;
  r_output_buffer_addr : Z;
  r_mdl : option MDL;
  r_alloc_addr : list Z
}.

(** [data[:n]] *)
Definition slice_to (n : Z) (data : list Z) : list Z :=
  if n <? 0 then take (Z.to_nat (Z.of_nat (length data) + n)) data
  else take (Z.to_nat n) data.

(** The [Qiling] instance as far as this module reaches into it. *)
Record Qiling {heap_t cpu_t : Type} := {
  mem : gmap Z Z;
  heap : heap_t;
  cpu : cpu_t;
  stdout : list Z;
  utils : QlOsUtils
}.
Arguments Qiling : clear implicits.

(** What [QlOsUtils] calls but does not define. *)
Class Collaborators := {
  (** the heap manager of the guest: [ql.os.heap] *)
  heap_t : Type;
  heap_alloc : heap_t → Z → Z * heap_t;
  heap_free : heap_t → Z → heap_t;
  (** the CPU with its register file *)
  cpu_t : Type;
  (** The [%] operator of [str] scans the format from left to right and
      copies every character other than ['%']; what a conversion
      specification consumes and produces is the business of the Python
      runtime, given here by [py_directive]: from the text after the ['%']
      and the arguments still unused, the text produced, the number of
      characters taken from the format and the arguments left. *)
  py_directive : list Z → list pyval → exn + (list Z * nat * list pyval);
  (** [ql.pointersize] and [ql.unpack] *)
  pointersize : Z;
  unpack : list Z → Z;
  (** the structure layouts for 32-bit and for 64-bit guests *)
  layout32 : layout;
  layout64 : layout;
  (** [ql.run(entry)]: the guest runs from [entry]; it may change anything
      in the emulator and ends normally or with a [UcError] *)
  run : config → Z → Qiling heap_t cpu_t → option Z * Qiling heap_t cpu_t;
  (** [verify_ret(ql, err)]: [true] when the call returns, which lets the
      request go on, [false] when it raises the error again *)
  verify_ret : Qiling heap_t cpu_t → Z → bool;
  (** [fcall_select(STDCALL)] and [fcall.writeParams]: the arguments go to
      registers or to the guest stack *)
  writeParams : list Z → cpu_t → gmap Z Z → cpu_t * gmap Z Z
}.

Section Emulator.

Context {W : wdk_const} {C : Collaborators}.

Local Abbreviation Qiling := (Qiling heap_t cpu_t).

Record state := {
  ql : Qiling;
  trace : list event
}.

Definition M (A : Type) : Type := state → outcome A * state.

Definition ret {A} (a : A) : M A := λ s, (Return a, s).
Definition raise {A} (e : exn) : M A := λ s, (Raise e, s).
Definition diverge {A} : M A := λ s, (Diverged, s).
Definition bind {A B} (m : M A) (k : A → M B) : M B :=
  λ s, match m s with
       | (Return a, s') => k a s'
       | (Raise e, s') => (Raise e, s')
       | (Diverged, s') => (Diverged, s')
       end.

#[global] Instance M_ret : MRet M := @ret.
#[global] Instance M_bind : MBind M := λ A B k m, bind m k.

Definition emit (e : event) : M unit :=
  λ s, (Return tt, {| ql := ql s; trace := trace s ++ [e] |}).

Definition get_ql : M Qiling := λ s, (Return (ql s), s).
Definition put_ql (q : Qiling) : M unit :=
  λ s, (Return tt, {| ql := q; trace := trace s |}).

Definition set_mem (m : gmap Z Z) (q : Qiling) : Qiling :=
  {| mem := m; heap := heap q; cpu := cpu q; stdout := stdout q; utils := utils q |}.
Definition set_heap (h : heap_t) (q : Qiling) : Qiling :=
  {| mem := mem q; heap := h; cpu := cpu q; stdout := stdout q; utils := utils q |}.
Definition set_cpu (c : cpu_t) (q : Qiling) : Qiling :=
  {| mem := mem q; heap := heap q; cpu := c; stdout := stdout q; utils := utils q |}.
Definition set_stdout (o : list Z) (q : Qiling) : Qiling :=
  {| mem := mem q; heap := heap q; cpu := cpu q; stdout := o; utils := utils q |}.
Definition set_utils (u : QlOsUtils) (q : Qiling) : Qiling :=
  {| mem := mem q; heap := heap q; cpu := cpu q; stdout := stdout q; utils := u |}.

(** [ql.mem.read] and [ql.mem.write] *)
Definition mem_read (addr : Z) (size : nat) : M (list Z) :=
  q ← get_ql; ret (Mem.read (mem q) addr size).
Definition mem_write (addr : Z) (data : list Z) : M unit :=
  q ← get_ql;
  put_ql (set_mem (Mem.write (mem q) addr data) q) ;;
  emit (EWrite addr data).

(** [heap.alloc] and [heap.free] *)
Definition alloc (size : Z) : M Z :=
  q ← get_ql;
  let r := heap_alloc (heap q) size in
  put_ql (set_heap r.2 q) ;;
  emit (EAlloc size r.1) ;;
  ret r.1.
Definition free (addr : Z) : M unit :=
  q ← get_ql;
  put_ql (set_heap (heap_free (heap q) addr) q) ;;
  emit (EFree addr).

(** *** Strings read from guest memory *)

(** The loop of [read_string]; [char] is decoded anew at every test, as
    in the source.  [fuel] bounds the number of chunks read. *)
Fixpoint read_string_loop (fuel : nat) (address : Z) (terminator result : list Z)
    : M (list Z) :=
  match fuel with
  | O => diverge
  | S fuel' =>
      let charlen := length terminator in
      char ← mem_read address charlen;
      if bool_decide (Codec.decode_ignore char = terminator)
      then ret result
      else read_string_loop fuel' (address + Z.of_nat charlen) terminator
                            (result ++ Codec.decode_ignore char)
  end.

Definition read_string (fuel : nat) (address : Z) (terminator : list Z)
    : M (list Z) :=
  read_string_loop fuel address terminator [].

Definition do_string_appearance (s : list Z) : M unit :=
  q ← get_ql; put_ql (set_utils (string_appearance s (utils q)) q).

Definition read_wstring (fuel : nat) (address : Z) : M (list Z) :=
  s ← read_string fuel address [0; 0];
  (* We need to remove \x00 inside the string. *)
  let s := Py.replace [0] [] s in
  do_string_appearance s ;;
  ret s.

Definition read_cstring (fuel : nat) (address : Z) : M (list Z) :=
  s ← read_string fuel address [0];
  do_string_appearance s ;;
  ret s.

(** *** Formatted output *)

Fixpoint py_format_from (skip : nat) (fmt : list Z) (args : list pyval)
    : exn + list Z :=
  match fmt with
  | [] => match args with
          | [] => inr []
          | _ :: _ => inl TypeError  (* not all arguments converted *)
          end
  | c :: fmt' =>
      match skip with
      | S k => py_format_from k fmt' args
      | O =>
          if c =? 37 then
            match py_directive fmt' args with
            | inl e => inl e
            | inr (out, n, args') =>
                match py_format_from n fmt' args' with
                | inl e => inl e
                | inr rest => inr (out ++ rest)
                end
            end
          else
            match py_format_from O fmt' args with
            | inl e => inl e
            | inr rest => inr (c :: rest)
            end
      end
  end.

(** [fmt % tuple(args)] *)
Definition py_format (fmt : list Z) (args : list pyval) : exn + list Z :=
  py_format_from O fmt args.

(** The loop [for i, f in enumerate(fmtstr)] of [__common_printf]. *)
Fixpoint deref_strings (read_string : Z → M (list Z)) (i : nat)
    (fmtstr : list (list Z)) (args : list pyval) : M (list pyval) :=
  match fmtstr with
  | [] => ret args
  | f :: fmtstr' =>
      if Py.startswith (Py.str "s") f then
        match args !! i with
        | None => raise IndexError
        | Some (PyInt a) =>
            s ← read_string a;
            deref_strings read_string (S i) fmtstr' (<[i := PyStr s]> args)
        | Some _ => raise TypeError
        end
      else deref_strings read_string (S i) fmtstr' args
  end.

Definition __common_printf (fuel : nat) (format : list Z) (args : list pyval)
    (wstring : bool) : M (list Z) :=
  let fmtstr := tail (Py.split 37 format) in
  let read_string := if wstring then read_wstring fuel else read_cstring fuel in
  args ← deref_strings read_string O fmtstr args;
  let out := Py.replace (Py.str "%llx") (Py.str "%x") format in
  let out := Py.replace (Py.str "%p") (Py.str "%#x") out in
  match py_format out args with
  | inl e => raise e
  | inr text => ret text
  end.

Fixpoint va_list_from (ptr : Z) (i : Z) (count : nat) : M (list pyval) :=
  match count with
  | O => ret []
  | S n =>
      w ← mem_read (ptr + i * pointersize) (Z.to_nat pointersize);
      ws ← va_list_from ptr (i + 1) n;
      ret (PyInt (unpack w) :: ws)
  end.

Definition va_list (format : list Z) (ptr : Z) : M (list pyval) :=
  va_list_from ptr 0 (Py.count 37 format).

Definition sprintf (fuel : nat) (buff : Z) (format : list Z) (args : list pyval)
    (wstring : bool) : M Z :=
  out ← __common_printf fuel format args wstring;
  let enc := if wstring then Codec.utf_16le else Codec.utf_8 in
  match Codec.encode enc (out ++ [0]) with
  | None => raise UnicodeEncodeError
  | Some data => mem_write buff data;; ret (Z.of_nat (length out))
  end.

Definition stdout_write (data : list Z) : M unit :=
  q ← get_ql; put_ql (set_stdout (stdout q ++ data) q).

Definition printf (fuel : nat) (format : list Z) (args : list pyval)
    (wstring : bool) : M Z :=
  out ← __common_printf fuel format args wstring;
  match Codec.encode Codec.utf_8 out with
  | None => raise UnicodeEncodeError
  | Some data => stdout_write data;; ret (Z.of_nat (length out))
  end.

(** *** Device requests *)

(** The variant chosen by [archtype == QL_ARCH.X8664]. *)
Definition by_archtype (cfg : config) : layout :=
  if decide (archtype cfg = X8664) then layout64 else layout32.

(** The variant chosen by [archbit == 32]. *)
Definition by_archbit (cfg : config) : layout :=
  if archbit cfg =? 32 then layout32 else layout64.

Definition len (b : list Z) : Z := Z.of_nat (length b).

(** The local function [build_mdl]; the list [alloc_addr] of the
    enclosing method is passed in and handed back. *)
Definition build_mdl (cfg : config) (alloc_addr : list Z) (buffer_size : Z)
    (data : option (list Z)) : M (MDL * list Z) :=
  mapped_address ← alloc buffer_size;
  let alloc_addr := alloc_addr ++ [mapped_address] in
  let mdl := {| MappedSystemVa := POINTER_value (by_archtype cfg) mapped_address;
                StartVa := POINTER_value (by_archtype cfg) mapped_address;
                ByteOffset := 0;
                ByteCount := buffer_size |} in
  match data with
  | Some (_ :: _ as data) =>
      let written := if len data <=? buffer_size then data
                     else slice_to buffer_size data in
      mem_write mapped_address written;;
      ret (mdl, alloc_addr)
  | _ => ret (mdl, alloc_addr)
  end.

(** [for addr in alloc_addr: heap.free(addr)] *)
Fixpoint free_all (alloc_addr : list Z) : M unit :=
  match alloc_addr with
  | [] => ret tt
  | addr :: rest => free addr;; free_all rest
  end.

Definition do_writeParams (args : list Z) : M unit :=
  q ← get_ql;
  let r := writeParams args (cpu q) (mem q) in
  put_ql (set_mem r.2 (set_cpu r.1 q)).

(** [try: ql.run(entry) except UcError as err: verify_ret(ql, err)] *)
Definition try_run (cfg : config) (entry : Z) : M unit :=
  emit (ERun entry);;
  q ← get_ql;
  let r := run cfg entry q in
  put_ql r.2;;
  match r.1 with
  | None => ret tt
  | Some errno => if verify_ret r.2 errno then ret tt else raise (UcError errno)
  end.

(** [IRP.from_buffer(ql.mem.read(irp_addr, ctypes.sizeof(IRP)))] *)
Definition read_irp (cfg : config) (irp_addr : Z) : M IRP :=
  irp_buffer ← mem_read irp_addr (Z.to_nat (sizeof_IRP (by_archtype cfg)));
  ret (IRP_from_buffer (by_archtype cfg) irp_buffer).

(** The part of [io_Write] up to the point at which the guest is
    entered; it yields [irp_addr] and [alloc_addr] for the part that
    follows. *)
Definition io_Write_prepare (cfg : config) (in_buffer : list Z)
    : M (Z * list Z) :=
  buf ← mem_read (DeviceObject (driver_object cfg))
                 (Z.to_nat (sizeof_DEVICE_OBJECT (by_archbit cfg)));
  let device_object_Flags := DEVICE_OBJECT_Flags (by_archbit cfg) buf in
  let alloc_addr := [] in
  (* allocate memory regions for IRP and IO_STACK_LOCATION *)
  irp_addr ← alloc (sizeof_IRP (by_archtype cfg));
  let alloc_addr := alloc_addr ++ [irp_addr] in
  irpstack_addr ← alloc (sizeof_IO_STACK_LOCATION (by_archtype cfg));
  let alloc_addr := alloc_addr ++ [irpstack_addr] in
  let irp := with_irpstack irpstack_addr IRP_new in
  let irpstack := {| sl_MajorFunction := IRP_MJ_WRITE;
                     sl_Parameters := Write (len in_buffer) |} in
  mem_write irpstack_addr (bytes_IO_STACK_LOCATION (by_archtype cfg) irpstack);;
  '(irp, alloc_addr) ←
    (if negb (Z.land device_object_Flags DO_BUFFERED_IO =? 0) then
       (* BUFFERED_IO *)
       system_buffer_addr ← alloc (len in_buffer);
       let alloc_addr := alloc_addr ++ [system_buffer_addr] in
       mem_write system_buffer_addr in_buffer;;
       ret (with_SystemBuffer system_buffer_addr irp, alloc_addr)
     else if negb (Z.land device_object_Flags DO_DIRECT_IO =? 0) then
       (* DIRECT_IO *)
       '(mdl, alloc_addr) ← build_mdl cfg alloc_addr (len in_buffer) None;
       mdl_addr ← alloc (sizeof_MDL (by_archtype cfg));
       let alloc_addr := alloc_addr ++ [mdl_addr] in
       mem_write mdl_addr (bytes_MDL (by_archtype cfg) mdl);;
       ret (with_MdlAddress mdl_addr irp, alloc_addr)
     else
       (* NEITHER_IO *)
       input_buffer_addr ← alloc (len in_buffer);
       let alloc_addr := alloc_addr ++ [input_buffer_addr] in
       mem_write input_buffer_addr in_buffer;;
       ret (with_UserBuffer input_buffer_addr irp, alloc_addr));
  (* everything is done! Write IRP to memory *)
  mem_write irp_addr (bytes_IRP (by_archtype cfg) irp);;
  (* set function args *)
  do_writeParams [DeviceObject (driver_object cfg); irp_addr];;
  ret (irp_addr, alloc_addr).

(** The part of [io_Write] after the guest has returned. *)
Definition io_Write_recover (cfg : config) (irp_addr : Z) (alloc_addr : list Z)
    : M (bool * option Z) :=
  (* read current IRP state *)
  irp ← read_irp cfg irp_addr;
  (* now free all alloc memory *)
  free_all alloc_addr;;
  ret (true, Some (irp_Information irp)).

Definition io_Write (cfg : config) (in_buffer : list Z) : M (bool * option Z) :=
  if bool_decide (ostype cfg = WINDOWS)
       && (MajorFunction (driver_object cfg) IRP_MJ_WRITE =? 0)
  then ret (false, None)
  else
    '(irp_addr, alloc_addr) ← io_Write_prepare cfg in_buffer;
    (* now emulate *)
    try_run cfg (MajorFunction (driver_object cfg) IRP_MJ_WRITE);;
    io_Write_recover cfg irp_addr alloc_addr.

(** The part of [ioctl] after the guest has returned: the IRP is read
    back, the output is fetched, the scratch memory is freed. *)
Definition ioctl_recover (cfg : config) (req : ioctl_request) : M ioctl_result :=
  let ctl_method := r_ctl_method req in
  (* read current IRP state *)
  irp ← read_irp cfg (r_irp_addr req);
  let Status := irp_Status irp in
  let Information := irp_Information irp in
  (* read output data *)
  let output_data := [] in
  output_data ←
    (if 0 <=? Status then
       output_data ←
         (if ctl_method =? METHOD_BUFFERED
          then mem_read (r_system_buffer_addr req) (Z.to_nat Information)
          else ret output_data);
       output_data ←
         (if (ctl_method =? METHOD_IN_DIRECT) || (ctl_method =? METHOD_OUT_DIRECT)
          then match r_mdl req with
               | Some mdl => mem_read (MappedSystemVa mdl) (Z.to_nat Information)
               | None => raise UnboundLocalError
               end
          else ret output_data);
       (if ctl_method =? METHOD_NEITHER
        then mem_read (r_output_buffer_addr req) (Z.to_nat Information)
        else ret output_data)
     else ret output_data);
  (* now free all alloc memory *)
  free_all (r_alloc_addr req);;
  ret (IoctlTriple (Some Status) (Some Information) (Some output_data)).

(** The part of [ioctl] between the test of the dispatch table and the
    entry into the guest. *)
Definition ioctl_prepare (cfg : config) (params : (Z * Z * Z * Z) * Z * list Z)
    : M ioctl_request :=
  let alloc_addr := [] in
  (* create new memory region to store input data *)
  let '(_ioctl_code, output_buffer_size, in_buffer) := params in
  (* extract data transfer method *)
  let '(devicetype, function, ctl_method, access) := _ioctl_code in
  let input_buffer_size := len in_buffer in
  input_buffer_addr ← alloc input_buffer_size;
  let alloc_addr := alloc_addr ++ [input_buffer_addr] in
  mem_write input_buffer_addr in_buffer;;
  (* create new memory region to store out data *)
  output_buffer_addr ← alloc output_buffer_size;
  let alloc_addr := alloc_addr ++ [output_buffer_addr] in
  (* allocate memory regions for IRP and IO_STACK_LOCATION *)
  irp_addr ← alloc (sizeof_IRP (by_archtype cfg));
  let alloc_addr := alloc_addr ++ [irp_addr] in
  irpstack_addr ← alloc (sizeof_IO_STACK_LOCATION (by_archtype cfg));
  let alloc_addr := alloc_addr ++ [irpstack_addr] in
  let irp := with_irpstack irpstack_addr IRP_new in
  let irpstack :=
    {| sl_MajorFunction := 0;
       sl_Parameters :=
         DeviceIoControl output_buffer_size input_buffer_size
           (ioctl_code devicetype function ctl_method access)
           input_buffer_addr |} in
  mem_write irpstack_addr (bytes_IO_STACK_LOCATION (by_archtype cfg) irpstack);;
  let irp := if ctl_method =? METHOD_NEITHER
             then with_UserBuffer output_buffer_addr irp else irp in
  (* allocate memory for AssociatedIrp.SystemBuffer *)
  let system_buffer_size := Z.max input_buffer_size output_buffer_size in
  system_buffer_addr ← alloc system_buffer_size;
  let alloc_addr := alloc_addr ++ [system_buffer_addr] in
  (* init data from input buffer *)
  mem_write system_buffer_addr in_buffer;;
  let irp := with_SystemBuffer system_buffer_addr irp in
  '(irp, mdl, alloc_addr) ←
    (if (ctl_method =? METHOD_IN_DIRECT) || (ctl_method =? METHOD_OUT_DIRECT)
     then
       (* Create MDL structure for output data *)
       '(mdl, alloc_addr) ← build_mdl cfg alloc_addr output_buffer_size None;
       mdl_addr ← alloc (sizeof_MDL (by_archtype cfg));
       let alloc_addr := alloc_addr ++ [mdl_addr] in
       mem_write mdl_addr (bytes_MDL (by_archtype cfg) mdl);;
       ret (with_MdlAddress mdl_addr irp, Some mdl, alloc_addr)
     else ret (irp, None, alloc_addr));
  (* everything is done! Write IRP to memory *)
  mem_write irp_addr (bytes_IRP (by_archtype cfg) irp);;
  (* set function args *)
  do_writeParams [DeviceObject (driver_object cfg); irp_addr];;
  ret {| r_ctl_method := ctl_method; r_irp_addr := irp_addr;
         r_system_buffer_addr := system_buffer_addr;
         r_output_buffer_addr := output_buffer_addr;
         r_mdl := mdl; r_alloc_addr := alloc_addr |}.

Definition ioctl (cfg : config) (params : (Z * Z * Z * Z) * Z * list Z)
    : M ioctl_result :=
  if bool_decide (ostype cfg = WINDOWS) then
    if MajorFunction (driver_object cfg) IRP_MJ_DEVICE_CONTROL =? 0
    then ret (IoctlTriple None None None)
    else
      req ← ioctl_prepare cfg params;
      (* now emulate IOCTL's DeviceControl *)
      try_run cfg (MajorFunction (driver_object cfg) IRP_MJ_DEVICE_CONTROL);;
      ioctl_recover cfg req
  else ret IoctlNone.

(** *** Vocabulary of the statements *)

(** Whether the guest, entered in state [s], gives control back: it
    returns, or it faults and [verify_ret] lets the fault pass. *)
Definition completes (cfg : config) (entry : Z) (s : state) : Prop :=
  match (run cfg entry (ql s)).1 with
  | None => True
  | Some errno => verify_ret (run cfg entry (ql s)).2 errno = true
  end.

(** The four transfer methods are four different codes. *)
Definition methods_distinct : Prop :=
  NoDup [METHOD_BUFFERED; METHOD_IN_DIRECT; METHOD_OUT_DIRECT; METHOD_NEITHER].

(** The two methods that go through an MDL. *)
Definition is_direct (ctl_method : Z) : bool :=
  (ctl_method =? METHOD_IN_DIRECT) || (ctl_method =? METHOD_OUT_DIRECT).

(** The emulator as the guest leaves it. *)
Definition after_run (cfg : config) (entry : Z) (s : state) : Qiling :=
  (run cfg entry (ql s)).2.

(** The IRP found at [irp_addr] in [q]. *)
Definition irp_at (cfg : config) (irp_addr : Z) (q : Qiling) : IRP :=
  IRP_from_buffer (by_archtype cfg)
    (Mem.read (mem q) irp_addr (Z.to_nat (sizeof_IRP (by_archtype cfg)))).

End Emulator.

(** ** A sample machine

    A concrete heap, layout, formatter and guest driver on which the
    methods can be run. *)

Module Sample.

(** A heap that hands out consecutive addresses and never reuses one. *)
Definition bump_alloc (next size : Z) : Z * Z := (next, next + Z.max size 1).
Definition bump_free (next addr : Z) : Z := next.

Fixpoint le (n : nat) (v : Z) : list Z :=
  match n with
  | O => []
  | S n' => v mod 256 :: le n' (v / 256)
  end.

Definition le_value (bs : list Z) : Z := foldr (λ b acc, b + 256 * acc) 0 bs.

Definition signed32 (v : Z) : Z := if v <? 2 ^ 31 then v else v - 2 ^ 32.

Definition field (w : nat) (i : nat) (bs : list Z) : Z :=
  le_value (take w (drop (i * w) bs)).

(** Fields of [w] bytes each, in little-endian order, one after another. *)
Definition sample_layout (w : nat) : layout :=
  {| sizeof_IRP := Z.of_nat (6 * w);
     bytes_IRP := λ i,
       le w (irp_MdlAddress i) ++ le w (irp_SystemBuffer i) ++
       le w (irp_Status i mod 2 ^ 32) ++ le w (irp_Information i) ++
       le w (irp_UserBuffer i) ++ le w (irp_irpstack i);
     IRP_from_buffer := λ bs,
       {| irp_MdlAddress := field w 0 bs; irp_SystemBuffer := field w 1 bs;
          irp_Status := signed32 (field w 2 bs mod 2 ^ 32);
          irp_Information := field w 3 bs;
          irp_UserBuffer := field w 4 bs; irp_irpstack := field w 5 bs |};
     sizeof_IO_STACK_LOCATION := Z.of_nat (5 * w);
     bytes_IO_STACK_LOCATION := λ sl,
       le w (sl_MajorFunction sl) ++
       match sl_Parameters sl with
       | Write n => le w n ++ le w 0 ++ le w 0 ++ le w 0
       | DeviceIoControl o i c t => le w o ++ le w i ++ le w c ++ le w t
       end;
     sizeof_MDL := Z.of_nat (4 * w);
     bytes_MDL := λ m,
       le w (MappedSystemVa m) ++ le w (StartVa m) ++
       le w (ByteOffset m) ++ le w (ByteCount m);
     sizeof_DEVICE_OBJECT := Z.of_nat w;
     DEVICE_OBJECT_Flags := λ bs, field w 0 bs;
     POINTER_value := λ v, v mod 2 ^ Z.of_nat (8 * w) |}.

(** A formatter that knows [%s] and [%%] only. *)
Definition directive (rest : list Z) (args : list pyval)
    : exn + (list Z * nat * list pyval) :=
  match rest with
  | 115 :: _ =>
      match args with
      | PyStr s :: args' => inr (s, 1%nat, args')
      | _ => inl TypeError
      end
  | 37 :: _ => inr ([37], 1%nat, args)
  | _ => inl ValueError
  end.

(** The register file keeps the arguments of the pending call. *)
Definition keep_params (args : list Z) (c : list Z) (m : gmap Z Z)
    : list Z * gmap Z Z := (args, m).

(** A driver that completes the IRP it is handed with the given status
    and information count, leaves [payload] in the system buffer and then
    ends the run as [fault] says. *)
Definition driver (w : nat) (status information : Z) (payload : list Z)
    (fault : option Z) (cfg : config) (entry : Z) (q : Qiling Z (list Z))
    : option Z * Qiling Z (list Z) :=
  match cpu q with
  | [_; irp_addr] =>
      let lay := sample_layout w in
      let irp := IRP_from_buffer lay (Mem.read (mem q) irp_addr (6 * w)) in
      let irp' := {| irp_MdlAddress := irp_MdlAddress irp;
                     irp_SystemBuffer := irp_SystemBuffer irp;
                     irp_Status := status; irp_Information := information;
                     irp_UserBuffer := irp_UserBuffer irp;
                     irp_irpstack := irp_irpstack irp |} in
      let m := Mem.write (mem q) (irp_SystemBuffer irp) payload in
      let m := Mem.write m irp_addr (bytes_IRP lay irp') in
      (fault, {| mem := m; heap := heap q; cpu := cpu q; stdout := stdout q;
                 utils := utils q |})
  | _ => (Some 0, q)
  end.

(** Unmapped reads and fetches are let through, as for a driver that
    returns to an address outside the image. *)
Definition lenient (q : Qiling Z (list Z)) (errno : Z) : bool :=
  (errno =? 6) || (errno =? 8).

(** The constants as the headers of the Windows Driver Kit give them. *)
Definition wdk : wdk_const :=
  {| IRP_MJ_WRITE := 0x04; IRP_MJ_DEVICE_CONTROL := 0x0e;
     DO_BUFFERED_IO := 0x4; DO_DIRECT_IO := 0x10;
     METHOD_BUFFERED := 0; METHOD_IN_DIRECT := 1;
     METHOD_OUT_DIRECT := 2; METHOD_NEITHER := 3 |}.

(** The machine with a guest of word size [w] and the driver above. *)
Definition machine (w : nat) (status information : Z) (payload : list Z)
    (fault : option Z) : Collaborators :=
  {| heap_t := Z; heap_alloc := bump_alloc; heap_free := bump_free;
     cpu_t := list Z; py_directive := directive;
     pointersize := Z.of_nat w; unpack := le_value;
     layout32 := sample_layout 4; layout64 := sample_layout 8;
     run := driver w status information payload fault;
     verify_ret := lenient; writeParams := keep_params |}.

(** The state at start: the heap begins at [0x5000], nothing is recorded. *)
Definition boot (C : Collaborators) (h : @heap_t C) (c : @cpu_t C)
    (m : gmap Z Z) : @state C :=
  {| ql := {| mem := m; heap := h; cpu := c; stdout := []; utils := init |};
     trace := [] |}.

Definition windows64 (major : Z → Z) : config :=
  {| ostype := WINDOWS; archtype := X8664; archbit := 64;
     driver_object := {| DeviceObject := 0x100; MajorFunction := major |} |}.

Definition windows32 (major : Z → Z) : config :=
  {| ostype := WINDOWS; archtype := X86; archbit := 32;
     driver_object := {| DeviceObject := 0x100; MajorFunction := major |} |}.

Definition no_dispatch : Z → Z := λ _, 0.
Definition all_dispatch : Z → Z := λ _, 0x401000.

(** A 64-bit guest whose driver succeeds with three bytes of output. *)
Definition echo64 : Collaborators := machine 8 0 3 [1; 2; 3; 4] None.

(** A 32-bit guest whose driver fails the request with
    STATUS_UNSUCCESSFUL, reports seven bytes and ends in a fault that
    [lenient] lets pass. *)
Definition failing32 : Collaborators :=
  machine 4 (-1073741823) 7 [] (Some 6).

(** The state at start with [data] at address [0x100]. *)
Definition start (C : Collaborators) (h : @heap_t C) (c : @cpu_t C)
    (data : list Z) : @state C :=
  boot C h c (Mem.write ∅ 0x100 data).

(** A device object with DO_BUFFERED_IO set, at [0x100]. *)
Definition buffered_device : list Z := [4; 0; 0; 0; 0; 0; 0; 0].

(** An IOCTL with three bytes of input and room for eight of output. *)
Definition request (ctl_method : Z) : Z * Z * Z * Z * Z * list Z :=
  ((0x22, 0x801, ctl_method, 0), 8, Py.str "PAY").

End Sample.

(** ** Reading a trace *)

(** The addresses that [heap.alloc] returned, in order. *)
Definition allocated (tr : list event) : list Z :=
  omap (λ e, match e with EAlloc _ addr => Some addr | _ => None end) tr.

(** The addresses that [heap.free] was called with, in order. *)
Definition freed (tr : list event) : list Z :=
  omap (λ e, match e with EFree addr => Some addr | _ => None end) tr.

(** The sizes that [heap.alloc] was called with, in order. *)
Definition alloc_sizes (tr : list event) : list Z :=
  omap (λ e, match e with EAlloc size _ => Some size | _ => None end) tr.

(** The entries at which the guest was started. *)
Definition runs (tr : list event) : list Z :=
  omap (λ e, match e with ERun entry => Some entry | _ => None end) tr.


(** ** More vocabulary for device requests *)

Section RequestVocabulary.

Context {W : wdk_const} {C : Collaborators}.

(** The flags of the device object as [io_Write] reads them. *)
Definition device_flags (cfg : config) (s : state) : Z :=
  DEVICE_OBJECT_Flags (by_archbit cfg)
    (Mem.read (mem (ql s)) (DeviceObject (driver_object cfg))
       (Z.to_nat (sizeof_DEVICE_OBJECT (by_archbit cfg)))).

(** The stack location that [io_Write] writes. *)
Definition write_stack (cfg : config) (in_buffer : list Z) : list Z :=
  bytes_IO_STACK_LOCATION (by_archtype cfg)
    {| sl_MajorFunction := IRP_MJ_WRITE; sl_Parameters := Write (len in_buffer) |}.

End RequestVocabulary.

(** ** The ledger over time *)

(** What can happen to the ledger: a call is recorded, a string is seen,
    the statistics are reset. *)
Inductive ledger_op :=
| OpCall (c : api_call)
| OpString (s : list Z)
| OpClear.

Definition apply_op (self : QlOsUtils) (op : ledger_op) : QlOsUtils :=
  match op with
  | OpCall c => record self c
  | OpString s => string_appearance s self
  | OpClear => clear_syscalls self
  end.

(** Positions in the ledger lie below the counter and grow along every
    list; positions in the string index do not exceed the counter. *)
Definition ledger_ok (self : QlOsUtils) : Prop :=
  0 <= syscalls_counter self
  ∧ (∀ name recs, syscalls self !! name = Some recs →
       (∀ r, r ∈ recs → 0 <= position r < syscalls_counter self)
       ∧ ∀ (i j : nat) ri rj, recs !! i = Some ri → recs !! j = Some rj →
                              (i < j)%nat → position ri < position rj)
  ∧ (∀ token ps, appeared_strings self !! token = Some ps →
       ∀ p, p ∈ ps → 0 <= p <= syscalls_counter self).

(** ** Variadic parameters and the call log *)

(** [QlOsUtils.ELLIPSIS_PREF] *)
Definition ELLIPSIS_PREF : list Z := Py.str "__qlva_".

(** The decimal digits of [n], the most significant first, put in front
    of [acc]; [fuel] bounds their number. *)
Fixpoint digits_from (fuel : nat) (n : Z) (acc : list Z) : list Z :=
  match fuel with
  | O => acc
  | S fuel' =>
      let acc := (48 + n mod 10) :: acc in
      if n / 10 =? 0 then acc else digits_from fuel' (n / 10) acc
  end.

(** [str(n)] for an integer [n]. *)
Definition py_str_int (n : Z) : list Z :=
  if n <? 0 then 45 :: digits_from (S (Z.to_nat (Z.log2 (- n)))) (- n) []
  else digits_from (S (Z.to_nat (Z.log2 n))) n [].

(** [int(s)] for a text of decimal digits. *)
Definition decimal_value (s : list Z) : Z := foldl (λ v d, 10 * v + (d - 48)) 0 s.

(** [f'{QlOsUtils.ELLIPSIS_PREF}{i}'] *)
Definition ellipsis_name (i : Z) : list Z := ELLIPSIS_PREF ++ py_str_int i.

(** [params.update((f'{ELLIPSIS_PREF}{i}', a) for i, a in enumerate(args))] *)
Definition update_ellipsis (params : gmap (list Z) pyval) (args : list pyval)
    : gmap (list Z) pyval :=
  foldl (λ m ia, <[ellipsis_name ia.1 := ia.2]> m) params (enumerate 0 args).

(** [sep.join(l)] *)
Fixpoint join (sep : list Z) (l : list (list Z)) : list Z :=
  match l with
  | [] => []
  | [x] => x
  | x :: l' => x ++ sep ++ join sep l'
  end.

(** The two levels at which [print_function] logs. *)
Inductive log_level := log_debug | log_info.

Section Logging.

(** What the format specifications [#x] and [#0{width}x] make of an
    integer is left to the Python runtime. *)
Variable format_hex : Z → list Z.
Variable format_hex_padded : Z → Z → list Z.

(** The local function [__assign_arg] of [print_function]. *)
Definition __assign_arg (name value : list Z) : list Z :=
  (* ignore arg names generated by variadric functions *)
  let name := if Py.startswith ELLIPSIS_PREF name then [] else name in
  match name with
  | [] => value
  | _ :: _ => name ++ Py.str " = " ++ value
  end.

(** [print_function]; [debug] stands for
    [ql.verbose >= QL_VERBOSE.DEBUG], [ret] is an integer, a text or
    [None], and the result is the level and the line that
    [ql.log] receives. *)
Definition print_function (debug : bool) (archbit : Z) (address : Z)
    (fname : list Z) (pargs : list (list Z * list Z)) (ret : option (Z + list Z))
    (passthru : bool) : log_level * list Z :=
  let fname := if Py.startswith (Py.str "hook_") fname then drop 5 fname
               else fname in
  (* arguments list *)
  let fargs := join (Py.str ", ") ((λ nv, __assign_arg nv.1 nv.2) <$> pargs) in
  let ret := match ret with
             | Some (inl n) => Some (format_hex n)
             | Some (inr t) => Some t
             | None => None
             end in
  (* optional prefixes and suffixes *)
  let fret := match ret with Some t => Py.str " = " ++ t | None => [] end in
  let fpass := if passthru then Py.str " (PASSTHRU)" else [] in
  let faddr := if debug
               then format_hex_padded (archbit / 4 + 2) address ++ Py.str ": "
               else [] in
  let log := faddr ++ fname ++ Py.str "(" ++ fargs ++ Py.str ")" ++ fret ++ fpass in
  if debug then (log_debug, log) else (log_info, log).

End Logging.

(** ** GUIDs *)

(** [int.from_bytes(b, 'big')] *)
Definition from_bytes_big (b : list Z) : Z := foldl (λ acc x, acc * 256 + x) 0 b.

(** [n.to_bytes(len, 'big')] for [n] that fits. *)
Fixpoint to_bytes_big (len : nat) (n : Z) : list Z :=
  match len with
  | O => []
  | S len' => to_bytes_big len' (n / 256) ++ [n mod 256]
  end.

(** The reordering between [bytes] and [bytes_le] of a [UUID]:
    [b[3::-1] + b[5:3:-1] + b[7:5:-1] + b[8:]]. *)
Definition swap_le (b : list Z) : list Z :=
  reverse (take 4 b) ++ reverse (take 2 (drop 4 b))
  ++ reverse (take 2 (drop 6 b)) ++ drop 8 b.

(** [UUID(bytes_le=b).int]; [None] where the constructor raises
    [ValueError] because [b] is not 16 bytes long. *)
Definition UUID_of_bytes_le (b : list Z) : option Z :=
  if bool_decide (length b = 16%nat) then Some (from_bytes_big (swap_le b))
  else None.

(** [UUID(int=n).bytes_le] *)
Definition UUID_bytes_le (n : Z) : list Z := swap_le (to_bytes_big 16 n).

Section Guid.

Context {C : Collaborators}.

Definition read_guid (address : Z) : M Z :=
  raw_guid ← mem_read address 16;
  match UUID_of_bytes_le raw_guid with
  | Some u => ret u
  | None => raise ValueError
  end.

End Guid.

(** ** The single-step loop of [QlOsMcu] *)

(** [QlOsMcu] with the emulator it drives. *)
Record QlOsMcu {core_t : Type} := {
  runable : bool;
  core : core_t
}.
Arguments QlOsMcu : clear implicits.

(** What [QlOsMcu] calls but does not define: the program counter, the
    execution of one instruction ([ql.emu_start(pc, 0, count=1)]) and the
    step of the hardware ([ql.hw.step()]), either of which may run hooks
    that call [stop], and the architecture with its Thumb bit. *)
Class McuParts := {
  core_t : Type;
  get_pc : core_t → Z;
  emu_start_one : QlOsMcu core_t → QlOsMcu core_t;
  hw_step : QlOsMcu core_t → QlOsMcu core_t;
  emu_stop : core_t → core_t;
  is_arm : bool;
  thumb : Z
}.

Section Mcu.

Context {P : McuParts}.

Definition mcu_step (self : QlOsMcu core_t) : QlOsMcu core_t :=
  hw_step (emu_start_one self).

Definition mcu_stop (self : QlOsMcu core_t) : QlOsMcu core_t :=
  {| runable := false; core := emu_stop (core self) |}.

(** The [while] loop of [run]; the first component of the result counts
    the calls of [step], and [None] stands for a loop that [fuel] did not
    see end. *)
Fixpoint run_loop (fuel : nat) (count : Z) (end_ : Z) (self : QlOsMcu core_t)
    : option (nat * QlOsMcu core_t) :=
  match fuel with
  | O => None
  | S fuel' =>
      if runable self && negb (get_pc (core self) =? end_) then
        let self := mcu_step self in
        let count := count - 1 in
        if count =? 0 then Some (1%nat, self)
        else match run_loop fuel' count end_ self with
             | Some (n, self') => Some (S n, self')
             | None => None
             end
      else Some (O, self)
  end.

(** The address at which [run] ends: [end], or [-1] for [None], with the
    Thumb bit on an ARM core. *)
Definition end_address (end_ : option Z) : Z :=
  if is_arm then Z.lor (default (-1) end_) thumb else default (-1) end_.

(** [run(count, end)] *)
Definition mcu_run (fuel : nat) (count end_ : option Z) (self : QlOsMcu core_t)
    : option (nat * QlOsMcu core_t) :=
  let self := {| runable := true; core := core self |} in
  let end_ := default (-1) end_ in
  let count := default (-1) count in
  let end_ := if is_arm then Z.lor end_ thumb else end_ in
  run_loop fuel count end_ self.

End Mcu.

(** ** More sample machines *)

Module Cases.

(** A core that is its program counter: an instruction advances it by
    two, and the hardware step calls [stop] when it sees [halt_at]. *)
Definition counter_mcu (halt_at : Z) : McuParts :=
  {| core_t := Z;
     get_pc := λ pc, pc;
     emu_start_one := λ self, {| runable := runable self; core := core self + 2 |};
     hw_step := λ self, if core self =? halt_at
                        then {| runable := false; core := core self |}
                        else self;
     emu_stop := λ pc, pc;
     is_arm := true;
     thumb := 1 |}.

(** A 64-bit guest whose driver ends in a fault that is not let pass. *)
Definition crashing64 : Collaborators := Sample.machine 8 0 0 [] (Some 1).

(** Device objects with DO_DIRECT_IO set and with no flag set. *)
Definition direct_device : list Z := [0x10; 0; 0; 0; 0; 0; 0; 0].
Definition plain_device : list Z := [0; 0; 0; 0; 0; 0; 0; 0].

(** Hexadecimal output is of no concern for the cases below. *)
Definition no_hex : Z → list Z := λ _, [].
Definition no_hex_padded : Z → Z → list Z := λ _ _, [].

End Cases.

(** * Properties *)

Example str_hello : Py.str "hello" = [104; 101; 108; 108; 111].
Proof. reflexivity. Qed.

Example split_two_spaces :
  Py.split 32 (Py.str "a  b") = [Py.str "a"; []; Py.str "b"].
Proof. reflexivity. Qed.

Example replace_llx :
  Py.replace (Py.str "%llx") (Py.str "%x") (Py.str "a%llxb%llx") = Py.str "a%xb%x".
Proof. reflexivity. Qed.

Example decode_e_acute : Codec.decode_ignore [0xC3; 0xA9] = [0xE9].
Proof. reflexivity. Qed.

Example ioctl_code_example : ioctl_code 0x22 0x801 3 0 = 0x222007.
Proof. reflexivity. Qed.


(** ** The control code *)

Lemma land_shiftl_low (a n : Z) : 2 <= n → Z.land (Z.shiftl a n) 3 = 0.
Proof.
  intros Hn. apply Z.bits_inj'. intros i Hi.
  rewrite Z.land_spec, Z.bits_0.
  destruct (Z.lt_ge_cases i 2) as [Hlt | Hge].
  - rewrite Z.shiftl_spec_low by lia. reflexivity.
  - replace (Z.testbit 3 i) with false; [apply andb_false_r |].
    symmetry. change 3 with (Z.ones 2). apply Z.ones_spec_high. lia.
Qed.

Lemma land_low_small (m : Z) : 0 <= m < 4 → Z.land m 3 = m.
Proof.
  intros Hm. change 3 with (Z.ones 2).
  rewrite Z.land_ones by lia. apply Z.mod_small. simpl. lia.
Qed.

Lemma ioctl_code_method (d f m a : Z) :
  0 <= m < 4 → Z.land (ioctl_code d f m a) 3 = m.
Proof.
  intros Hm. unfold ioctl_code.
  rewrite !Z.land_lor_distr_l, !land_shiftl_low by lia.
  rewrite land_low_small by lia. reflexivity.
Qed.

(** C4: for non-negative [deviceType], [access], [function] and a two-bit
    [method], [ioctl_code deviceType function method access] is
    [(deviceType << 16) | (access << 14) | (function << 2) | method], and
    its two low bits are [method]. *)
Theorem ioctl_code_layout (deviceType function method access : Z) :
  0 <= deviceType → 0 <= access → 0 <= function → 0 <= method < 4 →
  ioctl_code deviceType function method access
  = Z.lor (Z.lor (Z.lor (Z.shiftl deviceType 16) (Z.shiftl access 14))
                 (Z.shiftl function 2)) method
  ∧ Z.land (ioctl_code deviceType function method access) 3 = method.
Proof.
  intros _ _ _ Hm. split; [reflexivity | by apply ioctl_code_method].
Qed.

Lemma ioctl_code_layout_witness :
  ioctl_code 0x22 0x801 3 2 = 0x22A007 ∧ Z.land (ioctl_code 0x22 0x801 3 2) 3 = 3.
Proof.
  destruct (ioctl_code_layout 0x22 0x801 3 2) as [H1 H2]; [lia | lia | lia | lia |].
  split; [rewrite H1; reflexivity | exact H2].
Defined.

(** ** The call ledger *)

Lemma enumerate_fst {A} (l : list A) (start : Z) :
  (enumerate start l).*1 = (λ i, start + Z.of_nat i) <$> seq 0 (length l).
Proof.
  revert start. induction l as [|x l IH]; intros start; [reflexivity |].
  simpl. f_equal; [lia |].
  rewrite IH, <- (fmap_S_seq 0), <- list_fmap_compose.
  apply list_fmap_ext. intros _ i _. simpl. lia.
Qed.

Lemma enumerate_lookup {A} (l : list A) (start : Z) (k : nat) (x : A) :
  l !! k = Some x → (start + Z.of_nat k, x) ∈ enumerate start l.
Proof.
  revert start k. induction l as [|y l IH]; intros start k Hk; [done |].
  destruct k as [|k]; simpl in Hk; cbn [enumerate].
  - injection Hk as ->. rewrite Z.add_0_r. apply list_elem_of_here.
  - apply list_elem_of_further.
    replace (start + Z.of_nat (S k)) with (start + 1 + Z.of_nat k) by lia.
    by apply IH.
Qed.

Lemma record_syscalls (st : QlOsUtils) (c : api_call) (name : list Z) :
  default [] (syscalls (record st c) !! name)
  = default [] (syscalls st !! name)
    ++ entries_named name [(syscalls_counter st, c)].
Proof.
  unfold record, _call_api, entries_named. simpl.
  rewrite lookup_insert. case_decide as Heq.
  - subst name. rewrite bool_decide_eq_true_2 by done. reflexivity.
  - rewrite bool_decide_eq_false_2 by done. simpl. by rewrite app_nil_r.
Qed.

Lemma foldl_record (cs : list api_call) (st : QlOsUtils) :
  syscalls_counter (foldl record st cs) = syscalls_counter st + Z.of_nat (length cs)
  ∧ appeared_strings (foldl record st cs) = appeared_strings st
  ∧ ∀ name, default [] (syscalls (foldl record st cs) !! name)
            = default [] (syscalls st !! name)
              ++ entries_named name (enumerate (syscalls_counter st) cs).
Proof.
  revert st. induction cs as [|c cs IH]; intros st.
  - simpl. split; [lia |]. split; [done |]. intros name. by rewrite app_nil_r.
  - simpl foldl. destruct (IH (record st c)) as (Hn & Hs & Hl).
    split; [rewrite Hn; simpl; lia |]. split; [by rewrite Hs |].
    intros name. rewrite Hl, record_syscalls, <- app_assoc.
    f_equal. unfold entries_named. cbn [enumerate omap list_omap].
    change (syscalls_counter (record st c)) with (syscalls_counter st + 1).
    by destruct (bool_decide _).
Qed.

(** C6: after a reset and [n] calls of [_call_api] the counter stands at
    [n]; the calls carry the numbers [0 .. n-1] in call order, the ledger
    holds under every name exactly the records of the calls of that name,
    each with the number of its call, so that the [k]-th call is found
    with number [k]; every call raises the counter by one; and a reset
    empties the ledger and the string index and puts the counter back to
    [0]. *)
Theorem ledger_sequence_numbers (cs : list api_call) (st0 : QlOsUtils) :
  let st := foldl record (clear_syscalls st0) cs in
  syscalls_counter st = Z.of_nat (length cs)
  ∧ (enumerate 0 cs).*1 = Z.of_nat <$> seq 0 (length cs)
  ∧ (∀ name, default [] (syscalls st !! name) = entries_named name (enumerate 0 cs))
  ∧ (∀ (k : nat) c, cs !! k = Some c →
       entry_of (Z.of_nat k) c ∈ default [] (syscalls st !! strip_hook (c_name c)))
  ∧ (∀ c, syscalls_counter (record st c) = syscalls_counter st + 1
          ∧ last (default [] (syscalls (record st c) !! strip_hook (c_name c)))
            = Some (entry_of (syscalls_counter st) c))
  ∧ clear_syscalls st
    = {| syscalls := ∅; syscalls_counter := 0; appeared_strings := ∅ |}.
Proof.
  intros st. destruct (foldl_record cs (clear_syscalls st0)) as (Hn & _ & Hl).
  fold st in Hn, Hl. simpl in Hn, Hl.
  split; [exact Hn |]. split; [apply enumerate_fst |].
  split; [exact Hl |]. split; [| split; [| reflexivity]].
  - intros k c Hk. rewrite Hl. unfold entries_named.
    apply list_elem_of_omap. exists (Z.of_nat k, c). split.
    + by apply (enumerate_lookup cs 0 k c).
    + simpl. by rewrite bool_decide_eq_true_2.
  - intros c. split; [reflexivity |].
    rewrite record_syscalls. unfold entries_named. simpl.
    rewrite bool_decide_eq_true_2 by done. apply last_snoc.
Qed.

(** ** Guest memory *)

Lemma read_app (m : gmap Z Z) (a : Z) (n k : nat) :
  Mem.read m a (n + k) = Mem.read m a n ++ Mem.read m (a + Z.of_nat n) k.
Proof.
  revert a. induction n as [|n IH]; intros a.
  - simpl. by rewrite Z.add_0_r.
  - cbn [Nat.add Mem.read app]. rewrite IH. do 3 f_equal. lia.
Qed.

Lemma write_other (data : list Z) (m : gmap Z Z) (a x : Z) :
  x < a ∨ a + Z.of_nat (length data) <= x →
  Mem.byte_at (Mem.write m a data) x = Mem.byte_at m x.
Proof.
  revert m a. induction data as [|b data IH]; intros m a Hx; [done |].
  cbn [Mem.write]. rewrite IH by (cbn [length] in Hx; lia).
  unfold Mem.byte_at. rewrite lookup_insert_ne; [done | cbn [length] in Hx; lia].
Qed.

(** What has been written is what is read back. *)
Lemma read_write (data : list Z) (m : gmap Z Z) (a : Z) :
  Mem.read (Mem.write m a data) a (length data) = data.
Proof.
  revert m a. induction data as [|b data IH]; intros m a; [done |].
  cbn [Mem.write length Mem.read]. rewrite IH. f_equal.
  rewrite write_other by lia.
  unfold Mem.byte_at. by rewrite lookup_insert_eq.
Qed.

(** ** Text *)

Lemma replace_nul (s : list Z) : Py.replace [0] [] s = filter (λ c, c ≠ 0) s.
Proof.
  unfold Py.replace. induction s as [|c s IH]; [done |].
  cbn [Py.replace_from Py.startswith length Nat.pred app].
  rewrite filter_cons. destruct (decide (c ≠ 0)) as [Hc | Hc].
  - rewrite (proj2 (Z.eqb_neq 0 c)) by congruence. cbn [andb]. by rewrite IH.
  - assert (c = 0) as -> by lia. cbn [Z.eqb andb app]. exact IH.
Qed.

Lemma replace_absent (c : Z) (old new s : list Z) :
  c ∉ s → Py.replace (c :: old) new s = s.
Proof.
  unfold Py.replace. induction s as [|x s IH]; intros Hc; [done |].
  apply not_elem_of_cons in Hc as [Hx Hs].
  cbn [Py.replace_from Py.startswith].
  destruct (Z.eqb_spec c x) as [-> | _]; [done |].
  simpl. by rewrite IH.
Qed.

Lemma split_absent (c : Z) (s : list Z) : c ∉ s → Py.split c s = [s].
Proof.
  induction s as [|x s IH]; intros Hc; [done |].
  apply not_elem_of_cons in Hc as [Hx Hs].
  cbn [Py.split]. destruct (Z.eqb_spec x c) as [-> | _]; [done |].
  by rewrite IH.
Qed.

Lemma count_absent (c : Z) (s : list Z) : c ∉ s → Py.count c s = O.
Proof.
  unfold Py.count. induction s as [|x s IH]; intros Hc; [done |].
  apply not_elem_of_cons in Hc as [Hx Hs].
  rewrite filter_cons, decide_False by congruence. by apply IH.
Qed.

Lemma encode_app (enc : Codec.encoding) (a b da db : list Z) :
  Codec.encode enc a = Some da → Codec.encode enc b = Some db →
  Codec.encode enc (a ++ b) = Some (da ++ db).
Proof.
  revert da. induction a as [|c a IH]; intros da Ha Hb.
  - injection Ha as <-. exact Hb.
  - cbn [app Codec.encode] in *.
    destruct (Codec.encode_char enc c) as [bs|]; [| done].
    destruct (Codec.encode enc a) as [da'|]; [| done].
    injection Ha as <-. rewrite (IH da' eq_refl Hb). by rewrite app_assoc.
Qed.

Lemma encode_char_surrogate (enc : Codec.encoding) (c : Z) :
  Codec.is_surrogate c = true → Codec.encode_char enc c = None.
Proof.
  intros Hc. pose proof Hc as Hr. unfold Codec.is_surrogate in Hr.
  apply andb_prop in Hr as [Hlo Hhi]. apply Z.leb_le in Hlo. apply Z.ltb_lt in Hhi.
  destruct enc; cbn [Codec.encode_char].
  - unfold Codec.utf8_char. rewrite Hc.
    by rewrite (proj2 (Z.ltb_ge c 0x80)), (proj2 (Z.ltb_ge c 0x800)) by lia.
  - unfold Codec.utf16le_char. by rewrite Hc.
Qed.

Lemma encode_char_plain (enc : Codec.encoding) (c : Z) :
  Codec.is_surrogate c = false → is_Some (Codec.encode_char enc c).
Proof.
  intros Hc. destruct enc; cbn [Codec.encode_char].
  - unfold Codec.utf8_char. rewrite Hc.
    destruct (c <? 0x80); [done |]. destruct (c <? 0x800); [done |].
    by destruct (c <? 0x10000).
  - unfold Codec.utf16le_char. rewrite Hc. by destruct (c <? 0x10000).
Qed.

(** A text with a surrogate code point cannot be encoded. *)
Lemma encode_surrogate (enc : Codec.encoding) (s : list Z) :
  Exists (λ c, Codec.is_surrogate c = true) s → Codec.encode enc s = None.
Proof.
  induction 1 as [c s Hc | c s _ IH]; cbn [Codec.encode].
  - by rewrite (encode_char_surrogate enc c Hc).
  - rewrite IH. by destruct (Codec.encode_char enc c).
Qed.

(** Every other text can. *)
Lemma encode_plain (enc : Codec.encoding) (s : list Z) :
  Forall (λ c, Codec.is_surrogate c = false) s → is_Some (Codec.encode enc s).
Proof.
  induction 1 as [|c s Hc _ [bs' IH]]; cbn [Codec.encode]; [done |].
  destruct (encode_char_plain enc c Hc) as [bs Hbs]. by rewrite Hbs, IH.
Qed.

(** The wide encoding of text in the ASCII range: every character is
    followed by a zero byte. *)
Lemma encode_wide_ascii (text : list Z) :
  Forall (λ c, 1 <= c < 128) text →
  Codec.encode Codec.utf_16le text = Some (text ≫= λ c, [c; 0]).
Proof.
  induction 1 as [|c text Hc _ IH]; [done |].
  cbn [Codec.encode Codec.encode_char]. rewrite IH.
  unfold Codec.utf16le_char, Codec.is_surrogate.
  replace (0xD800 <=? c) with false by (symmetry; apply Z.leb_gt; lia).
  replace (c <? 0x10000) with true by (symmetry; apply Z.ltb_lt; lia).
  cbn [andb]. do 2 f_equal.
  change 0xFF with (Z.ones 8). rewrite Z.land_ones by lia.
  rewrite Z.shiftr_div_pow2 by lia.
  rewrite Z.mod_small, Z.div_small by (simpl; lia). reflexivity.
Qed.

(** ** Strings read from guest memory *)

Section Strings.

Context {C : Collaborators}.

Arguments Mem.byte_at : simpl never.

Lemma mem_read_run (a : Z) (n : nat) (s : state) :
  mem_read a n s = (Return (Mem.read (mem (ql s)) a n), s).
Proof. reflexivity. Qed.

Lemma bind_run {A B} (m : M A) (k : A → M B) (s : state) :
  (m ≫= k) s
  = match m s with
    | (Return a, s') => k a s'
    | (Raise e, s') => (Raise e, s')
    | (Diverged, s') => (Diverged, s')
    end.
Proof. reflexivity. Qed.

Lemma decode_ascii_pair (c : Z) :
  1 <= c < 128 → Codec.decode_ignore [c; 0] = [c; 0].
Proof.
  intros Hc. cbn [Codec.decode_ignore].
  by rewrite (proj2 (Z.ltb_lt c 0x80)) by lia.
Qed.

Lemma decode_ascii_single (c : Z) :
  0 <= c < 128 → Codec.decode_ignore [c] = [c].
Proof.
  intros Hc. cbn [Codec.decode_ignore].
  by rewrite (proj2 (Z.ltb_lt c 0x80)) by lia.
Qed.

(** The loop of [read_string] on a narrow buffer of ASCII text. *)
Lemma read_narrow (text : list Z) :
  ∀ (a : Z) (fuel : nat) (acc : list Z) (s : state),
    Forall (λ c, 1 <= c < 128) text →
    Mem.read (mem (ql s)) a (length text + 1) = text ++ [0] →
    (length text < fuel)%nat →
    read_string_loop fuel a [0] acc s = (Return (acc ++ text), s).
Proof.
  induction text as [|c text IH]; intros a fuel acc s Hall Hm Hf;
    (destruct fuel as [|fuel]; [cbn [length] in Hf; lia |]).
  - cbn in Hm. injection Hm as Hb.
    cbn [read_string_loop length]. rewrite bind_run, mem_read_run.
    cbn [Mem.read]. rewrite Hb. cbn. by rewrite app_nil_r.
  - apply Forall_cons in Hall as [Hc Hall].
    cbn [length Nat.add Mem.read app] in Hm. injection Hm as Hb Hm.
    cbn [read_string_loop length]. rewrite bind_run, mem_read_run.
    cbn [Mem.read]. rewrite Hb, decode_ascii_single by lia.
    rewrite bool_decide_eq_false_2 by (intros [=]; lia).
    change (Z.of_nat 1) with 1.
    rewrite (IH (a + 1) fuel (acc ++ [c]) s Hall Hm) by (cbn [length] in Hf; lia).
    by rewrite <- app_assoc.
Qed.

(** The same loop on a wide buffer: every chunk of two bytes is decoded
    on its own, so an ASCII character comes with the zero byte that
    follows it. *)
Lemma read_wide (text : list Z) :
  ∀ (a : Z) (fuel : nat) (acc : list Z) (s : state),
    Forall (λ c, 1 <= c < 128) text →
    Mem.read (mem (ql s)) a (length (text ≫= λ c, [c; 0]) + 2)
    = (text ≫= λ c, [c; 0]) ++ [0; 0] →
    (length text < fuel)%nat →
    read_string_loop fuel a [0; 0] acc s
    = (Return (acc ++ (text ≫= λ c, [c; 0])), s).
Proof.
  induction text as [|c text IH]; intros a fuel acc s Hall Hm Hf;
    (destruct fuel as [|fuel]; [cbn [length] in Hf; lia |]).
  - cbn in Hm. injection Hm as Hb0 Hb1.
    cbn [read_string_loop length]. rewrite bind_run, mem_read_run.
    cbn [Mem.read]. rewrite Hb0, Hb1. cbn. by rewrite app_nil_r.
  - apply Forall_cons in Hall as [Hc Hall].
    cbn [mbind list_bind app length Nat.add Mem.read] in Hm.
    injection Hm as Hb0 Hb1 Hm.
    cbn [read_string_loop length]. rewrite bind_run, mem_read_run.
    cbn [Mem.read]. rewrite Hb0, Hb1, decode_ascii_pair by lia.
    rewrite bool_decide_eq_false_2 by (intros [=]; lia).
    replace (a + Z.of_nat 2) with (a + 1 + 1) by lia.
    rewrite (IH (a + 1 + 1) fuel (acc ++ [c; 0]) s Hall Hm)
      by (cbn [length] in Hf; lia).
    by rewrite <- app_assoc.
Qed.

Lemma strip_wide (text : list Z) :
  Forall (λ c, 1 <= c < 128) text →
  Py.replace [0] [] (text ≫= λ c, [c; 0]) = text.
Proof.
  rewrite replace_nul. induction 1 as [|c text Hc _ IH]; [done |].
  cbn [mbind list_bind app]. rewrite !filter_cons.
  rewrite decide_True by lia. rewrite decide_False by (intros Hn; by apply Hn).
  by f_equal.
Qed.

(** C7, as the code has it: for every text of ASCII characters other
    than NUL whose wide encoding, followed by two zero bytes, lies in
    guest memory at [address], [read_wstring] returns that text, no null
    character in it, and records its appearance; the buffer encoding
    ["ab"] is such a case. *)
Theorem read_wstring_ascii (text data : list Z) (address : Z) (fuel : nat)
    (s : state) :
  Forall (λ c, 1 <= c < 128) text →
  Codec.encode Codec.utf_16le text = Some data →
  Mem.read (mem (ql s)) address (length data + 2) = data ++ [0; 0] →
  (length text < fuel)%nat →
  read_wstring fuel address s
  = (Return text,
     {| ql := set_utils (string_appearance text (utils (ql s))) (ql s);
        trace := trace s |})
  ∧ 0 ∉ text.
Proof.
  intros Hall Henc Hm Hf.
  rewrite (encode_wide_ascii text Hall) in Henc. injection Henc as <-.
  split.
  - unfold read_wstring, read_string. rewrite bind_run.
    rewrite (read_wide text address fuel [] s Hall Hm Hf).
    cbn [app]. rewrite (strip_wide text Hall). reflexivity.
  - intros Hin. rewrite Forall_forall in Hall. specialize (Hall 0 Hin). lia.
Qed.

(** C8: with the bytes [b"hello\x00"] at [address], [read_cstring]
    returns ["hello"] and puts the counter value of that moment into the
    position set of the token ["hello"]; nothing else changes. *)
Theorem read_cstring_hello (address : Z) (fuel : nat) (s : state) :
  Mem.read (mem (ql s)) address 6 = Py.str "hello" ++ [0] →
  (6 <= fuel)%nat →
  ∃ s',
    read_cstring fuel address s = (Return (Py.str "hello"), s')
    ∧ appeared_strings (utils (ql s')) !! Py.str "hello"
      = Some (default ∅ (appeared_strings (utils (ql s)) !! Py.str "hello")
              ∪ {[syscalls_counter (utils (ql s))]})
    ∧ (∀ token, token ≠ Py.str "hello" →
         appeared_strings (utils (ql s')) !! token
         = appeared_strings (utils (ql s)) !! token)
    ∧ syscalls_counter (utils (ql s')) = syscalls_counter (utils (ql s))
    ∧ syscalls (utils (ql s')) = syscalls (utils (ql s))
    ∧ mem (ql s') = mem (ql s) ∧ trace s' = trace s.
Proof.
  intros Hm Hf. eexists. split.
  - unfold read_cstring, read_string. rewrite bind_run.
    rewrite (read_narrow (Py.str "hello") address fuel [] s);
      [reflexivity | | exact Hm | cbn; lia].
    rewrite str_hello. repeat (constructor; [lia |]). constructor.
  - cbn [ql utils set_utils string_appearance appeared_strings
         syscalls_counter syscalls mem trace].
    change (Py.split 32 ([] ++ Py.str "hello")) with [Py.str "hello"].
    cbn [foldl]. unfold add_token.
    split; [apply lookup_insert_eq |].
    split; [| done].
    intros token Hne. by rewrite lookup_insert_ne.
Qed.

(** *** Formats without a conversion *)

Lemma py_format_plain (fmt : list Z) : 37 ∉ fmt → py_format fmt [] = inr fmt.
Proof.
  unfold py_format. induction fmt as [|c fmt IH]; intros Hc; [done |].
  apply not_elem_of_cons in Hc as [Hx Hs].
  cbn [py_format_from]. rewrite (proj2 (Z.eqb_neq c 37)) by congruence.
  by rewrite IH.
Qed.

Lemma common_printf_plain (fuel : nat) (format : list Z) (wstring : bool)
    (s : state) :
  37 ∉ format → __common_printf fuel format [] wstring s = (Return format, s).
Proof.
  intros Hc. unfold __common_printf.
  rewrite (split_absent 37 format Hc). cbn [tail deref_strings].
  rewrite bind_run. cbn [ret].
  change (Py.str "%llx") with (37 :: Py.str "llx").
  change (Py.str "%p") with (37 :: Py.str "p").
  rewrite (replace_absent 37 (Py.str "llx") _ format Hc).
  rewrite (replace_absent 37 (Py.str "p") _ format Hc).
  by rewrite (py_format_plain format Hc).
Qed.

(** A plain format with a surrogate code point: the text is produced,
    but encoding it raises before anything is written. *)
Lemma plain_surrogate_raises (fuel : nat) (buff : Z) (format : list Z)
    (wstring : bool) (s : state) :
  37 ∉ format →
  Exists (λ c, Codec.is_surrogate c = true) format →
  sprintf fuel buff format [] wstring s = (Raise UnicodeEncodeError, s)
  ∧ printf fuel format [] wstring s = (Raise UnicodeEncodeError, s).
Proof.
  intros Hc Hs. split.
  - unfold sprintf. rewrite bind_run, (common_printf_plain _ _ _ _ Hc).
    by rewrite encode_surrogate by (apply Exists_app; by left).
  - unfold printf. rewrite bind_run, (common_printf_plain _ _ _ _ Hc).
    by rewrite encode_surrogate.
Qed.

(** C9: a format without ['%'] goes with an empty argument list, and the
    text that [sprintf] and [printf] produce is the format itself.  When
    no character of it is a surrogate code point it can be encoded, and
    both copy it: [sprintf] writes its encoding (UTF-16LE when wide,
    UTF-8 otherwise) and the encoded null character to [buff], [printf]
    appends its UTF-8 encoding to the output stream, and both return its
    length in characters.  When a character is a surrogate, both raise
    [UnicodeEncodeError] and nothing is written. *)
Theorem printf_plain_copy (fuel : nat) (buff ptr : Z) (format : list Z)
    (wstring : bool) (s : state) :
  37 ∉ format →
  let enc := if wstring then Codec.utf_16le else Codec.utf_8 in
  va_list format ptr s = (Return [], s)
  ∧ __common_printf fuel format [] wstring s = (Return format, s)
  ∧ (Forall (λ c, Codec.is_surrogate c = false) format →
     ∃ data data8,
       Codec.encode enc format = Some data
       ∧ Codec.encode Codec.utf_8 format = Some data8
       ∧ let written := data ++ (if wstring then [0; 0] else [0]) in
         sprintf fuel buff format [] wstring s
         = (Return (Z.of_nat (length format)),
            {| ql := set_mem (Mem.write (mem (ql s)) buff written) (ql s);
               trace := trace s ++ [EWrite buff written] |})
         ∧ printf fuel format [] wstring s
           = (Return (Z.of_nat (length format)),
              {| ql := set_stdout (stdout (ql s) ++ data8) (ql s);
                 trace := trace s |}))
  ∧ (Exists (λ c, Codec.is_surrogate c = true) format →
     sprintf fuel buff format [] wstring s = (Raise UnicodeEncodeError, s)
     ∧ printf fuel format [] wstring s = (Raise UnicodeEncodeError, s)).
Proof.
  intros Hc enc. split; [| split; [| split]].
  - unfold va_list. by rewrite (count_absent 37 format Hc).
  - by apply common_printf_plain.
  - intros Hplain.
    destruct (encode_plain enc format Hplain) as [data Henc].
    destruct (encode_plain Codec.utf_8 format Hplain) as [data8 Henc8].
    exists data, data8. split; [exact Henc |]. split; [exact Henc8 |].
    intros written. split.
    + unfold sprintf. rewrite bind_run, (common_printf_plain _ _ _ _ Hc).
      fold enc.
      rewrite (encode_app _ format [0] data (if wstring then [0; 0] else [0]) Henc)
        by (subst enc; by destruct wstring).
      reflexivity.
    + unfold printf. rewrite bind_run, (common_printf_plain _ _ _ _ Hc).
      rewrite Henc8. reflexivity.
  - by apply plain_surrogate_raises.
Qed.

End Strings.

(** ** Device requests *)

Section Requests.

Context {W : wdk_const} {C : Collaborators}.

Lemma free_run (a : Z) (s : state) :
  free a s
  = (Return tt,
     {| ql := set_heap (heap_free (heap (ql s)) a) (ql s);
        trace := trace s ++ [EFree a] |}).
Proof. reflexivity. Qed.

Lemma free_all_run (l : list Z) (s : state) :
  free_all l s
  = (Return tt,
     {| ql := set_heap (foldl heap_free (heap (ql s)) l) (ql s);
        trace := trace s ++ (EFree <$> l) |}).
Proof.
  revert s. induction l as [|a l IH]; intros s.
  - simpl. destruct s as [[] ?]. simpl. by rewrite app_nil_r.
  - cbn [free_all]. rewrite bind_run, free_run, IH. cbn.
    by rewrite <- app_assoc.
Qed.

Lemma try_run_run (cfg : config) (entry : Z) (s : state) :
  try_run cfg entry s
  = (match (run cfg entry (ql s)).1 with
     | None => Return tt
     | Some errno =>
         if verify_ret (run cfg entry (ql s)).2 errno
         then Return tt else Raise (UcError errno)
     end,
     {| ql := (run cfg entry (ql s)).2; trace := trace s ++ [ERun entry] |}).
Proof.
  unfold try_run, mbind, M_bind, bind, emit, get_ql, put_ql. cbn.
  destruct (run cfg entry (ql s)).1 as [errno|]; [| done].
  by destruct (verify_ret _ errno).
Qed.

Lemma try_run_completes (cfg : config) (entry : Z) (s : state) :
  completes cfg entry s →
  try_run cfg entry s
  = (Return tt,
     {| ql := (run cfg entry (ql s)).2; trace := trace s ++ [ERun entry] |}).
Proof.
  unfold completes. rewrite try_run_run.
  destruct (run cfg entry (ql s)).1 as [errno|]; [| done].
  by intros ->.
Qed.


Lemma io_Write_recover_run (cfg : config) (irp_addr : Z) (l : list Z) (s : state) :
  io_Write_recover cfg irp_addr l s
  = (Return (true,
             Some (irp_Information
                     (IRP_from_buffer (by_archtype cfg)
                        (Mem.read (mem (ql s)) irp_addr
                           (Z.to_nat (sizeof_IRP (by_archtype cfg))))))),
     {| ql := set_heap (foldl heap_free (heap (ql s)) l) (ql s);
        trace := trace s ++ (EFree <$> l) |}).
Proof.
  unfold io_Write_recover, read_irp. rewrite !bind_run, mem_read_run.
  cbn [ret]. rewrite bind_run, free_all_run. reflexivity.
Qed.

(** [io_Write_prepare] always reaches its end; up to there it only
    allocates, and [alloc_addr] holds what it allocated. *)
Lemma io_Write_prepare_run (cfg : config) (in_buffer : list Z) (s : state) :
  ∃ irp_addr alloc_addr s1 pre,
    io_Write_prepare cfg in_buffer s = (Return (irp_addr, alloc_addr), s1)
    ∧ trace s1 = trace s ++ pre
    ∧ allocated pre = alloc_addr
    ∧ freed pre = [].
Proof.
  unfold io_Write_prepare. unfold mbind, M_bind, bind. simpl.
  destruct (negb _).
  - simpl. do 4 eexists. split; [reflexivity |]. simpl.
    rewrite <- !app_assoc. split; [reflexivity |]. by split.
  - destruct (negb _).
    + simpl. do 4 eexists. split; [reflexivity |]. simpl.
      rewrite <- !app_assoc. split; [reflexivity |]. by split.
    + simpl. do 4 eexists. split; [reflexivity |]. simpl.
      rewrite <- !app_assoc. split; [reflexivity |]. by split.
Qed.

(** C10: a write request that is dispatched always gets ready to enter
    the guest; when the guest then gives control back, by returning or
    by a fault that [verify_ret] lets pass, [io_Write] returns [True]
    with the information count of the IRP as the guest left it, whatever
    status the IRP carries. *)
Theorem io_Write_success_flag (cfg : config) (in_buffer : list Z) (s : state) :
  ¬ (ostype cfg = WINDOWS ∧ MajorFunction (driver_object cfg) IRP_MJ_WRITE = 0) →
  ∃ irp_addr alloc_addr s1,
    io_Write_prepare cfg in_buffer s = (Return (irp_addr, alloc_addr), s1)
    ∧ (completes cfg (MajorFunction (driver_object cfg) IRP_MJ_WRITE) s1 →
       let after :=
         after_run cfg (MajorFunction (driver_object cfg) IRP_MJ_WRITE) s1 in
       ∃ s', io_Write cfg in_buffer s
             = (Return (true, Some (irp_Information (irp_at cfg irp_addr after))),
                s')).
Proof.
  intros Hreg.
  destruct (io_Write_prepare_run cfg in_buffer s)
    as (irp_addr & alloc_addr & s1 & pre & Hprep & _).
  exists irp_addr, alloc_addr, s1. split; [exact Hprep |].
  intros Hrun after. unfold io_Write.
  replace (bool_decide (ostype cfg = WINDOWS)
           && (MajorFunction (driver_object cfg) IRP_MJ_WRITE =? 0)) with false.
  - rewrite bind_run, Hprep. cbn iota beta.
    rewrite bind_run, (try_run_completes _ _ _ Hrun).
    rewrite io_Write_recover_run. eexists. reflexivity.
  - symmetry. apply andb_false_iff.
    destruct (decide (ostype cfg = WINDOWS)) as [Hw | Hw].
    + right. apply Z.eqb_neq. intros Hz. by apply Hreg.
    + left. by apply bool_decide_eq_false_2.
Qed.

(** *** IOCTL *)

(** [ioctl_prepare] always reaches its end; up to there it only
    allocates, [alloc_addr] holds what it allocated, and for the direct
    methods the MDL describes a buffer of the output size. *)
Lemma ioctl_prepare_run (cfg : config) (devicetype function ctl_method access
    output_buffer_size : Z) (in_buffer : list Z) (s : state) :
  ∃ req s1 pre,
    ioctl_prepare cfg
      ((devicetype, function, ctl_method, access), output_buffer_size, in_buffer) s
    = (Return req, s1)
    ∧ trace s1 = trace s ++ pre
    ∧ allocated pre = r_alloc_addr req
    ∧ freed pre = []
    ∧ r_ctl_method req = ctl_method
    ∧ EAlloc output_buffer_size (r_output_buffer_addr req) ∈ pre
    ∧ EAlloc (Z.max (len in_buffer) output_buffer_size) (r_system_buffer_addr req)
      ∈ pre
    ∧ EAlloc (sizeof_IRP (by_archtype cfg)) (r_irp_addr req) ∈ pre
    ∧ (is_direct ctl_method = true →
       ∃ mdl a, r_mdl req = Some mdl
                ∧ EAlloc output_buffer_size a ∈ pre
                ∧ MappedSystemVa mdl = POINTER_value (by_archtype cfg) a).
Proof.
  unfold ioctl_prepare, is_direct. unfold mbind, M_bind, bind. simpl.
  destruct (_ || _).
  - simpl. do 3 eexists. split; [reflexivity |]. simpl.
    rewrite <- !app_assoc. split; [reflexivity |].
    do 3 (split; [reflexivity |]). simpl.
    split; [do 2 apply list_elem_of_further; apply list_elem_of_here |].
    split; [do 6 apply list_elem_of_further; apply list_elem_of_here |].
    split; [do 3 apply list_elem_of_further; apply list_elem_of_here |].
    intros _. do 2 eexists.
    split; [reflexivity |]. split; [| reflexivity].
    do 8 apply list_elem_of_further. apply list_elem_of_here.
  - simpl. do 3 eexists. split; [reflexivity |]. simpl.
    rewrite <- !app_assoc. split; [reflexivity |].
    do 3 (split; [reflexivity |]). simpl.
    split; [do 2 apply list_elem_of_further; apply list_elem_of_here |].
    split; [do 6 apply list_elem_of_further; apply list_elem_of_here |].
    split; [do 3 apply list_elem_of_further; apply list_elem_of_here |].
    intros [=].
Qed.


Lemma methods_apart :
  methods_distinct →
  METHOD_BUFFERED ≠ METHOD_IN_DIRECT ∧ METHOD_BUFFERED ≠ METHOD_OUT_DIRECT
  ∧ METHOD_BUFFERED ≠ METHOD_NEITHER ∧ METHOD_IN_DIRECT ≠ METHOD_NEITHER
  ∧ METHOD_OUT_DIRECT ≠ METHOD_NEITHER.
Proof.
  unfold methods_distinct. rewrite !NoDup_cons, !not_elem_of_cons.
  intros ((? & ? & ? & _) & (_ & ? & _) & (? & _) & _). done.
Qed.

Lemma buffered_not_direct : methods_distinct → is_direct METHOD_BUFFERED = false.
Proof.
  intros (H1 & H2 & _)%methods_apart. unfold is_direct.
  apply orb_false_iff. by split; apply Z.eqb_neq.
Qed.

Lemma neither_not_direct : methods_distinct → is_direct METHOD_NEITHER = false.
Proof.
  intros (_ & _ & _ & H1 & H2)%methods_apart. unfold is_direct.
  apply orb_false_iff. by split; apply Z.eqb_neq.
Qed.

(** What [ioctl_recover] hands back. *)
Lemma ioctl_recover_run (cfg : config) (req : ioctl_request) (s : state) :
  methods_distinct →
  (is_direct (r_ctl_method req) = true → is_Some (r_mdl req)) →
  let irp := irp_at cfg (r_irp_addr req) (ql s) in
  let m := mem (ql s) in
  let n := Z.to_nat (irp_Information irp) in
  ∃ output_data s',
    ioctl_recover cfg req s
    = (Return (IoctlTriple (Some (irp_Status irp)) (Some (irp_Information irp))
                           (Some output_data)), s')
    ∧ (irp_Status irp < 0 → output_data = [])
    ∧ (0 <= irp_Status irp → r_ctl_method req = METHOD_BUFFERED →
       output_data = Mem.read m (r_system_buffer_addr req) n)
    ∧ (0 <= irp_Status irp →
       r_ctl_method req = METHOD_IN_DIRECT ∨ r_ctl_method req = METHOD_OUT_DIRECT →
       ∃ mdl, r_mdl req = Some mdl
              ∧ output_data = Mem.read m (MappedSystemVa mdl) n)
    ∧ (0 <= irp_Status irp → r_ctl_method req = METHOD_NEITHER →
       output_data = Mem.read m (r_output_buffer_addr req) n).
Proof.
  intros Hdist Hmdl irp m n.
  pose proof (buffered_not_direct Hdist) as Hbd.
  pose proof (neither_not_direct Hdist) as Hnd.
  destruct (methods_apart Hdist) as (Hbi & Hbo & Hbn & Hin & Hon).
  unfold ioctl_recover, read_irp. rewrite !bind_run, mem_read_run. cbn [ret].
  fold (irp_at cfg (r_irp_addr req) (ql s)). fold irp.
  rewrite bind_run. unfold is_direct in Hmdl, Hbd, Hnd.
  destruct (Z.leb_spec 0 (irp_Status irp)) as [Hst | Hst].
  - rewrite !bind_run.
    destruct (Z.eqb_spec (r_ctl_method req) METHOD_BUFFERED) as [Hb | Hb].
    + rewrite Hb in *. rewrite Hbd, (proj2 (Z.eqb_neq _ _) Hbn).
      rewrite mem_read_run. cbn [ret]. rewrite bind_run. cbn [ret].
      rewrite bind_run, free_all_run. do 2 eexists. split; [reflexivity |].
      split; [lia |]. split; [done |]. split; [by intros _ [? | ?] |].
      done.
    + cbn [ret]. rewrite bind_run.
      destruct (_ || _) eqn:Hd.
      * destruct (Hmdl eq_refl) as [mdl Hsome]. rewrite Hsome.
        rewrite mem_read_run.
        assert ((r_ctl_method req =? METHOD_NEITHER) = false) as ->.
        { apply Z.eqb_neq. intros Hn. rewrite Hn, Hnd in Hd. discriminate Hd. }
        cbn [ret]. rewrite bind_run, free_all_run.
        do 2 eexists. split; [reflexivity |].
        split; [lia |]. split; [done |]. split; [by exists mdl |].
        intros _ Hn. rewrite Hn, Hnd in Hd. discriminate Hd.
      * cbn [ret].
        apply orb_false_iff in Hd as [Hd1 Hd2].
        apply Z.eqb_neq in Hd1, Hd2.
        destruct (Z.eqb_spec (r_ctl_method req) METHOD_NEITHER) as [Hn | Hn].
        -- rewrite mem_read_run. cbn [ret]. rewrite bind_run, free_all_run.
           do 2 eexists. split; [reflexivity |].
           split; [lia |]. split; [done |]. split; [by intros _ [? | ?] |].
           done.
        -- cbn [ret]. rewrite bind_run, free_all_run.
           do 2 eexists. split; [reflexivity |].
           split; [done |]. split; [done |]. split; [by intros _ [? | ?] |].
           done.
  - cbn [ret]. rewrite bind_run, free_all_run.
    do 2 eexists. split; [reflexivity |].
    split; [done |]. repeat split; intros; lia.
Qed.

(** C1, as the code has it: when the DEVICE_CONTROL entry of the
    dispatch table is null, [ioctl] on a Windows guest returns the
    triple [(None, None, None)] (on any other guest it returns [None]),
    and the emulator is left as it was: nothing is allocated, written or
    run. *)
Theorem ioctl_unregistered (cfg : config) (params : Z * Z * Z * Z * Z * list Z)
    (s : state) :
  MajorFunction (driver_object cfg) IRP_MJ_DEVICE_CONTROL = 0 →
  ioctl cfg params s
  = (Return (if bool_decide (ostype cfg = WINDOWS)
             then IoctlTriple None None None else IoctlNone), s).
Proof.
  intros Hnull. unfold ioctl. rewrite Hnull.
  by destruct (bool_decide _).
Qed.

(** *** Scratch memory *)

Lemma freed_app (a b : list event) : freed (a ++ b) = freed a ++ freed b.
Proof. apply omap_app. Qed.


Lemma allocated_app (a b : list event) :
  allocated (a ++ b) = allocated a ++ allocated b.
Proof. apply omap_app. Qed.

Lemma allocated_frees (l : list Z) : allocated (EFree <$> l) = [].
Proof. induction l as [|a l IH]; [done |]. exact IH. Qed.





(** *** Allocation and output of an IOCTL *)

(** C3, as the code has it: the four method codes being different, for
    METHOD_BUFFERED [ioctl] allocates, in
    this order, the input buffer, the output buffer, the IRP, the stack
    location and the system buffer; the system buffer has the size of the
    larger of the input length and [output_buffer_size], the input bytes
    are written to its start, and its address goes into the IRP. *)
Theorem ioctl_buffered_allocation (cfg : config) (devicetype function access
    output_buffer_size : Z) (in_buffer : list Z) (s : state) :
  methods_distinct →
  ∃ req s1 a_in a_out a_irp a_sl a_sys,
    ioctl_prepare cfg
      ((devicetype, function, METHOD_BUFFERED, access), output_buffer_size,
       in_buffer) s
    = (Return req, s1)
    ∧ trace s1
      = trace s
        ++ [EAlloc (len in_buffer) a_in;
            EWrite a_in in_buffer;
            EAlloc output_buffer_size a_out;
            EAlloc (sizeof_IRP (by_archtype cfg)) a_irp;
            EAlloc (sizeof_IO_STACK_LOCATION (by_archtype cfg)) a_sl;
            EWrite a_sl
              (bytes_IO_STACK_LOCATION (by_archtype cfg)
                 {| sl_MajorFunction := 0;
                    sl_Parameters :=
                      DeviceIoControl output_buffer_size (len in_buffer)
                        (ioctl_code devicetype function METHOD_BUFFERED access)
                        a_in |});
            EAlloc (Z.max (len in_buffer) output_buffer_size) a_sys;
            EWrite a_sys in_buffer;
            EWrite a_irp
              (bytes_IRP (by_archtype cfg)
                 (with_SystemBuffer a_sys (with_irpstack a_sl IRP_new)))]
    ∧ r_system_buffer_addr req = a_sys
    ∧ r_alloc_addr req = [a_in; a_out; a_irp; a_sl; a_sys]
    ∧ r_mdl req = None
    ∧ ∀ m, Mem.read (Mem.write m a_sys in_buffer) a_sys (length in_buffer)
           = in_buffer.
Proof.
  intros Hdist.
  pose proof (buffered_not_direct Hdist) as Hbd. unfold is_direct in Hbd.
  destruct (methods_apart Hdist) as (_ & _ & Hbn%Z.eqb_neq & _).
  unfold ioctl_prepare. unfold mbind, M_bind, bind. simpl.
  rewrite Hbd, Hbn. simpl.
  do 7 eexists. split; [reflexivity |]. simpl.
  rewrite <- !app_assoc. split; [reflexivity |].
  do 3 (split; [reflexivity |]). intros m. apply read_write.
Qed.

(** C5: the four method codes being different, an IOCTL that is
    dispatched always gets ready to enter the
    guest; when the guest gives control back, [ioctl] returns the status
    and the information count of the IRP as the guest left it, and an
    output that is empty when the status is negative and otherwise is
    read, in the length of the information count, from the system buffer
    for METHOD_BUFFERED, from the mapped address of the MDL for
    METHOD_IN_DIRECT and METHOD_OUT_DIRECT, and from the output buffer
    for METHOD_NEITHER. *)
Theorem ioctl_output_payload (cfg : config) (devicetype function ctl_method
    access output_buffer_size : Z) (in_buffer : list Z) (s : state) :
  methods_distinct →
  ostype cfg = WINDOWS →
  MajorFunction (driver_object cfg) IRP_MJ_DEVICE_CONTROL ≠ 0 →
  let params :=
    ((devicetype, function, ctl_method, access), output_buffer_size, in_buffer) in
  let entry := MajorFunction (driver_object cfg) IRP_MJ_DEVICE_CONTROL in
  ∃ req s1 pre,
    ioctl_prepare cfg params s = (Return req, s1)
    ∧ trace s1 = trace s ++ pre
    ∧ EAlloc output_buffer_size (r_output_buffer_addr req) ∈ pre
    ∧ EAlloc (Z.max (len in_buffer) output_buffer_size) (r_system_buffer_addr req)
      ∈ pre
    ∧ EAlloc (sizeof_IRP (by_archtype cfg)) (r_irp_addr req) ∈ pre
    ∧ (completes cfg entry s1 →
       let q := after_run cfg entry s1 in
       let irp := irp_at cfg (r_irp_addr req) q in
       let n := Z.to_nat (irp_Information irp) in
       ∃ output_data s',
         ioctl cfg params s
         = (Return (IoctlTriple (Some (irp_Status irp))
                                (Some (irp_Information irp))
                                (Some output_data)), s')
         ∧ (irp_Status irp < 0 → output_data = [])
         ∧ (0 <= irp_Status irp → ctl_method = METHOD_BUFFERED →
            output_data = Mem.read (mem q) (r_system_buffer_addr req) n)
         ∧ (0 <= irp_Status irp →
            ctl_method = METHOD_IN_DIRECT ∨ ctl_method = METHOD_OUT_DIRECT →
            ∃ mdl a,
              r_mdl req = Some mdl
              ∧ EAlloc output_buffer_size a ∈ pre
              ∧ MappedSystemVa mdl = POINTER_value (by_archtype cfg) a
              ∧ output_data = Mem.read (mem q) (MappedSystemVa mdl) n)
         ∧ (0 <= irp_Status irp → ctl_method = METHOD_NEITHER →
            output_data = Mem.read (mem q) (r_output_buffer_addr req) n)).
Proof.
  intros Hdist Hwin Hreg params entry.
  destruct (ioctl_prepare_run cfg devicetype function ctl_method access
              output_buffer_size in_buffer s)
    as (req & s1 & pre & Hprep & Htr & _ & _ & Hm & Hout & Hsys & Hirp & Hmdl).
  exists req, s1, pre. do 5 (split; [done |]).
  intros Hrun q irp n. unfold ioctl.
  rewrite bool_decide_eq_true_2 by done.
  rewrite (proj2 (Z.eqb_neq _ 0) Hreg).
  subst params. rewrite bind_run, Hprep, bind_run.
  fold entry. rewrite (try_run_completes _ _ _ Hrun).
  destruct (ioctl_recover_run cfg req
              {| ql := (run cfg entry (ql s1)).2;
                 trace := trace s1 ++ [ERun entry] |})
    as (output_data & s' & Hrec & Hneg & Hbuf & Hdir & Hnei); [exact Hdist | |].
  { rewrite Hm. intros Hd. destruct (Hmdl Hd) as (mdl & a & Hsome & _).
    by exists mdl. }
  exists output_data, s'. split; [exact Hrec |].
  split; [exact Hneg |]. rewrite Hm in Hbuf, Hdir, Hnei.
  split; [exact Hbuf |]. split; [| exact Hnei].
  intros Hst Hd. destruct (Hdir Hst Hd) as (mdl & Hsome & Hread).
  destruct Hmdl as (mdl' & a & Hsome' & Ha & Hmap).
  { unfold is_direct. destruct Hd as [-> | ->]; rewrite Z.eqb_refl;
      [reflexivity | apply orb_true_r]. }
  rewrite Hsome in Hsome'. injection Hsome' as <-.
  exists mdl, a. repeat split; assumption.
Qed.

End Requests.

(** ** The methods on the sample machine *)

Module Runs.

Import Sample.

#[local] Existing Instance wdk.

(** The lemmas below run the methods on concrete inputs and give the
    figures that the general statements speak about. *)

(** An unregistered DEVICE_CONTROL entry: the answer and the untouched
    emulator. *)
Lemma ioctl_unregistered_witness :
  @ioctl wdk echo64 (windows64 no_dispatch) (request METHOD_BUFFERED)
         (start echo64 0x5000 [] buffered_device)
  = (Return (IoctlTriple None None None), start echo64 0x5000 [] buffered_device).
Proof.
  apply (@ioctl_unregistered wdk echo64 (windows64 no_dispatch)
           (request METHOD_BUFFERED) (start echo64 0x5000 [] buffered_device)).
  reflexivity.
Defined.

(** The third component of that answer is [None]; it is not the empty
    [bytes] object. *)
Lemma ioctl_unregistered_output_is_None :
  (@ioctl wdk echo64 (windows64 no_dispatch) (request METHOD_BUFFERED)
          (start echo64 0x5000 [] buffered_device)).1
  = Return (IoctlTriple None None None)
  ∧ (@ioctl wdk echo64 (windows64 no_dispatch) (request METHOD_BUFFERED)
            (start echo64 0x5000 [] buffered_device)).1
    ≠ Return (IoctlTriple None None (Some [])).
Proof. split; [reflexivity | discriminate]. Qed.

(** A buffered IOCTL with three bytes of input and eight bytes of room
    for output: five allocations, and a system buffer of eight bytes. *)
Lemma ioctl_buffered_five_allocations :
  let r := @ioctl_prepare wdk echo64 (windows64 all_dispatch) (request METHOD_BUFFERED)
                          (start echo64 0x5000 [] buffered_device) in
  r.1 = Return {| r_ctl_method := 0; r_irp_addr := 20491;
                  r_system_buffer_addr := 20579; r_output_buffer_addr := 20483;
                  r_mdl := None;
                  r_alloc_addr := [20480; 20483; 20491; 20539; 20579] |}
  ∧ alloc_sizes (trace r.2) = [3; 8; 48; 40; 8]
  ∧ trace r.2 !! 6%nat = Some (EAlloc 8 20579)
  ∧ len (Py.str "PAY") = 3
  ∧ length (alloc_sizes (trace r.2)) ≠ 1%nat
  ∧ 8 ≠ len (Py.str "PAY").
Proof. vm_compute. repeat split; (reflexivity || discriminate). Qed.

(** The same request through the general statement. *)
Lemma ioctl_buffered_allocation_witness :
  ∃ req s1,
    @ioctl_prepare wdk echo64 (windows64 all_dispatch) (request METHOD_BUFFERED)
                   (start echo64 0x5000 [] buffered_device)
    = (Return req, s1)
    ∧ length (r_alloc_addr req) = 5%nat
    ∧ r_mdl req = None.
Proof.
  destruct (@ioctl_buffered_allocation wdk echo64 (windows64 all_dispatch)
              0x22 0x801 0 8 (Py.str "PAY")
              (start echo64 0x5000 [] buffered_device))
    as (req & s1 & a_in & a_out & a_irp & a_sl & a_sys
        & Hprep & _ & _ & Hl & Hm & _).
  - compute_done.
  - exists req, s1. split; [exact Hprep |]. rewrite Hl.
    split; [reflexivity | exact Hm].
Defined.

Lemma pair_by_fst {A B} (x : A * B) (a : A) : x.1 = a → x = (a, x.2).
Proof. destruct x as [a' b]. by intros <-. Qed.

Lemma pair_parts {A B} (x : A * B) (a : A) (b : B) :
  x = (a, b) → a = x.1 ∧ b = x.2.
Proof. by intros ->. Qed.

(** A write request whose driver fails it and then faults: the fault is
    let through, and the answer is [True] with the seven bytes that the
    driver reported. *)
Lemma io_Write_success_flag_witness :
  ∃ s', @io_Write wdk failing32 (windows32 all_dispatch) (Py.str "PAYLOAD")
                  (start failing32 0x5000 [] buffered_device)
        = (Return (true, Some 7), s').
Proof.
  destruct (@io_Write_success_flag wdk failing32 (windows32 all_dispatch)
              (Py.str "PAYLOAD") (start failing32 0x5000 [] buffered_device))
    as (irp_addr & alloc_addr & s1 & Hprep & Hrun).
  - intros [_ Hnull]. vm_compute in Hnull. discriminate Hnull.
  - apply pair_parts in Hprep as [Hr ->].
    assert (irp_addr = 20480) as ->.
    { apply (f_equal (λ r, match r with Return (a, _) => a | _ => 0 end)) in Hr.
      vm_compute in Hr. exact Hr. }
    destruct Hrun as [s' Hs']; [vm_compute; reflexivity |].
    exists s'. rewrite Hs'.
    apply (f_equal (λ v, (Return (true, Some v), s'))).
    vm_compute. reflexivity.
Defined.


(** A buffered IOCTL that succeeds with three bytes: they are read from
    the system buffer. *)
Lemma ioctl_output_payload_witness :
  ∃ s', @ioctl wdk echo64 (windows64 all_dispatch) (request METHOD_BUFFERED)
               (start echo64 0x5000 [] buffered_device)
        = (Return (IoctlTriple (Some 0) (Some 3) (Some [1; 2; 3])), s').
Proof.
  destruct (@ioctl_output_payload wdk echo64 (windows64 all_dispatch)
              0x22 0x801 METHOD_BUFFERED 0 8 (Py.str "PAY")
              (start echo64 0x5000 [] buffered_device))
    as (req & s1 & pre & Hprep & _ & _ & _ & _ & Hrun).
  - compute_done.
  - reflexivity.
  - vm_compute. discriminate.
  - apply pair_parts in Hprep as [Hr ->].
    assert (req = {| r_ctl_method := 0; r_irp_addr := 20491;
                     r_system_buffer_addr := 20579;
                     r_output_buffer_addr := 20483; r_mdl := None;
                     r_alloc_addr := [20480; 20483; 20491; 20539; 20579] |})
      as ->.
    { vm_compute in Hr. by injection Hr. }
    destruct Hrun as (output_data & s' & Hio & _ & Hbuf & _);
      [vm_compute; reflexivity |].
    exists s'. unfold request. rewrite Hio.
    rewrite Hbuf; [| vm_compute; discriminate | reflexivity].
    match goal with
    | |- (Return (IoctlTriple (Some ?a) (Some ?b) (Some ?c)), _) = _ =>
        assert (a = 0 ∧ b = 3 ∧ c = [1; 2; 3]) as (-> & -> & ->)
          by (vm_compute; repeat split; reflexivity)
    end.
    reflexivity.
Defined.

(** The wide buffer that encodes ["ab"]. *)
Lemma read_wstring_ascii_witness :
  (@read_wstring echo64 3 0x100 (start echo64 0x5000 [] [0x61; 0; 0x62; 0; 0; 0])).1
  = Return (Py.str "ab")
  ∧ 0 ∉ Py.str "ab".
Proof.
  destruct (@read_wstring_ascii echo64 (Py.str "ab") [0x61; 0; 0x62; 0] 0x100 3
              (start echo64 0x5000 [] [0x61; 0; 0x62; 0; 0; 0])) as [Hr Hn].
  - change (Py.str "ab") with [97; 98]. repeat (constructor; [lia |]). constructor.
  - reflexivity.
  - vm_compute. reflexivity.
  - vm_compute. lia.
  - split; [by rewrite Hr | exact Hn].
Defined.

(** The wide buffer that encodes the one character U+00E9: decoded as
    UTF-8 its first byte is dropped, and what is left is the zero byte
    that is stripped afterwards. *)
Lemma read_wstring_e_acute :
  Codec.encode Codec.utf_16le [0xE9] = Some [0xE9; 0]
  ∧ Mem.read (mem (ql (start echo64 0x5000 [] [0xE9; 0; 0; 0]))) 0x100 (2 + 2)
    = [0xE9; 0] ++ [0; 0]
  ∧ Py.replace [0] [] [0xE9] = [0xE9]
  ∧ (@read_wstring echo64 3 0x100 (start echo64 0x5000 [] [0xE9; 0; 0; 0])).1
    = Return []
  ∧ (@read_wstring echo64 3 0x100 (start echo64 0x5000 [] [0xE9; 0; 0; 0])).1
    ≠ Return [0xE9].
Proof. vm_compute. repeat split; (reflexivity || discriminate). Qed.

(** No amount of fuel changes that answer. *)
Lemma read_wstring_e_acute_any_fuel (fuel : nat) :
  (@read_wstring echo64 fuel 0x100 (start echo64 0x5000 [] [0xE9; 0; 0; 0])).1
  ≠ Return [0xE9].
Proof.
  destruct fuel as [|[|fuel]]; [discriminate | discriminate |].
  unfold read_wstring, read_string. rewrite bind_run.
  cbn [read_string_loop length]. rewrite bind_run, mem_read_run.
  replace (Mem.read _ 256 2) with [0xE9; 0] by (vm_compute; reflexivity).
  replace (bool_decide (Codec.decode_ignore [0xE9; 0] = [0; 0])) with false
    by (vm_compute; reflexivity).
  rewrite bind_run, mem_read_run.
  replace (Mem.read _ _ 2) with [0; 0] by (vm_compute; reflexivity).
  replace (bool_decide (Codec.decode_ignore [0; 0] = [0; 0])) with true
    by (vm_compute; reflexivity).
  discriminate.
Qed.

(** The narrow buffer [b"hello\x00"], read before any call is recorded. *)
Lemma read_cstring_hello_witness :
  ∃ s', @read_cstring echo64 6 0x100 (start echo64 0x5000 [] (Py.str "hello" ++ [0]))
        = (Return (Py.str "hello"), s')
        ∧ appeared_strings (utils (ql s')) !! Py.str "hello" = Some {[0]}.
Proof.
  destruct (@read_cstring_hello echo64 0x100 6
              (start echo64 0x5000 [] (Py.str "hello" ++ [0])))
    as (s' & Hr & Happ & _).
  - vm_compute. reflexivity.
  - lia.
  - exists s'. split; [exact Hr |]. rewrite Happ. vm_compute. reflexivity.
Defined.

(** The format ["abc"], wide. *)
Lemma printf_plain_copy_witness :
  let s := start echo64 0x5000 [] [] in
  (@sprintf echo64 0 0x200 (Py.str "abc") [] true s).1 = Return 3
  ∧ Mem.read (mem (ql (@sprintf echo64 0 0x200 (Py.str "abc") [] true s).2)) 0x200 8
    = [0x61; 0; 0x62; 0; 0x63; 0; 0; 0]
  ∧ (@printf echo64 0 (Py.str "abc") [] true s).1 = Return 3
  ∧ stdout (ql (@printf echo64 0 (Py.str "abc") [] true s).2) = [0x61; 0x62; 0x63].
Proof.
  intros s.
  destruct (@printf_plain_copy echo64 0 0x200 0 (Py.str "abc") true s)
    as (_ & _ & Hok & _).
  - change (Py.str "abc") with [97; 98; 99].
    rewrite !not_elem_of_cons. repeat split; (lia || apply not_elem_of_nil).
  - destruct Hok as (data & data8 & He & He8 & Hs & Hp).
    + change (Py.str "abc") with [97; 98; 99]. repeat constructor.
    + vm_compute in He. injection He as <-.
      vm_compute in He8. injection He8 as <-.
      rewrite Hs, Hp. repeat split; vm_compute; reflexivity.
Defined.

(** The format ["a\ud800"] has no ['%'], and its second character is a
    lone surrogate: neither [sprintf], narrow or wide, nor [printf] copies
    it; each raises [UnicodeEncodeError] and leaves memory and the output
    stream as they were. *)
Lemma printf_lone_surrogate :
  let s := start echo64 0x5000 [] [] in
  let format := [0x61; 0xD800] in
  (37 ∉ format)
  ∧ Codec.encode Codec.utf_8 format = None
  ∧ Codec.encode Codec.utf_16le format = None
  ∧ @sprintf echo64 0 0x200 format [] false s = (Raise UnicodeEncodeError, s)
  ∧ @sprintf echo64 0 0x200 format [] true s = (Raise UnicodeEncodeError, s)
  ∧ @printf echo64 0 format [] false s = (Raise UnicodeEncodeError, s)
  ∧ (@sprintf echo64 0 0x200 format [] false s).1
    ≠ Return (Z.of_nat (length format))
  ∧ (@printf echo64 0 format [] false s).1 ≠ Return (Z.of_nat (length format)).
Proof.
  intros s format.
  assert (37 ∉ format) as Hc
    by (unfold format; rewrite !not_elem_of_cons; repeat split;
        (lia || apply not_elem_of_nil)).
  assert (Exists (λ c, Codec.is_surrogate c = true) format) as Hs
    by (apply Exists_cons_tl, Exists_cons_hd; reflexivity).
  destruct (@plain_surrogate_raises echo64 0 0x200 format false s Hc Hs) as [Hn Hp].
  destruct (@plain_surrogate_raises echo64 0 0x200 format true s Hc Hs) as [Hw _].
  split; [exact Hc |]. split; [reflexivity |]. split; [reflexivity |].
  split; [exact Hn |]. split; [exact Hw |]. split; [exact Hp |].
  rewrite Hn, Hp. split; discriminate.
Qed.

End Runs.

(** * Further properties *)


(** ** The fields of a control code *)

Lemma small_bits (x k j : Z) : 0 <= x < 2 ^ k → 0 <= k <= j → Z.testbit x j = false.
Proof.
  intros Hx Hk. destruct (Z.eq_dec x 0) as [-> | Hne]; [apply Z.bits_0 |].
  apply Z.bits_above_log2; [lia |]. apply Z.log2_lt_pow2; [lia |].
  apply Z.lt_le_trans with (2 ^ k); [lia |]. apply Z.pow_le_mono_r; lia.
Qed.

Lemma ioctl_code_bits (d f m a i : Z) :
  0 <= i →
  Z.testbit (ioctl_code d f m a) i
  = Z.testbit d (i - 16) || Z.testbit a (i - 14) || Z.testbit f (i - 2)
    || Z.testbit m i.
Proof.
  intros Hi. unfold ioctl_code.
  by rewrite !Z.lor_spec, !Z.shiftl_spec by lia.
Qed.

(** X1: The four fields can be read back from a control code whose [access]
    and [method] have two bits and whose [function] has twelve. *)
Theorem ioctl_code_fields (deviceType function method access : Z) :
  0 <= deviceType → 0 <= access < 4 → 0 <= function < 4096 → 0 <= method < 4 →
  let code := ioctl_code deviceType function method access in
  Z.shiftr code 16 = deviceType
  ∧ Z.land (Z.shiftr code 14) 3 = access
  ∧ Z.land (Z.shiftr code 2) 0xFFF = function
  ∧ Z.land code 3 = method.
Proof.
  intros Hd Ha Hf Hm code. subst code.
  assert (∀ j, 2 <= j → Z.testbit method j = false) as Hmb
    by (intros j Hj; apply (small_bits method 2 j); lia).
  assert (∀ j, 2 <= j → Z.testbit access j = false) as Hab
    by (intros j Hj; apply (small_bits access 2 j); lia).
  assert (∀ j, 12 <= j → Z.testbit function j = false) as Hfb
    by (intros j Hj; apply (small_bits function 12 j); lia).
  assert (∀ x j, j < 0 → Z.testbit x j = false) as Hneg
    by (intros x j Hj; by apply Z.testbit_neg_r).
  repeat split.
  - apply Z.bits_inj'. intros i Hi.
    rewrite Z.shiftr_spec, ioctl_code_bits by lia.
    rewrite (Hab (i + 16 - 14)), (Hfb (i + 16 - 2)), (Hmb (i + 16)) by lia.
    rewrite !orb_false_r. f_equal. lia.
  - apply Z.bits_inj'. intros i Hi.
    rewrite Z.land_spec, Z.shiftr_spec, ioctl_code_bits by lia.
    destruct (Z.lt_ge_cases i 2) as [Hlt | Hge].
    + rewrite (Hneg deviceType (i + 14 - 16)), (Hfb (i + 14 - 2)),
        (Hmb (i + 14)) by lia.
      change 3 with (Z.ones 2). rewrite Z.ones_spec_low by lia.
      rewrite orb_false_l, !orb_false_r, andb_true_r. f_equal. lia.
    + change 3 with (Z.ones 2). rewrite Z.ones_spec_high by lia.
      rewrite andb_false_r. symmetry. by apply Hab.
  - apply Z.bits_inj'. intros i Hi.
    rewrite Z.land_spec, Z.shiftr_spec, ioctl_code_bits by lia.
    destruct (Z.lt_ge_cases i 12) as [Hlt | Hge].
    + rewrite (Hneg deviceType (i + 2 - 16)), (Hneg access (i + 2 - 14)),
        (Hmb (i + 2)) by lia.
      change 0xFFF with (Z.ones 12). rewrite Z.ones_spec_low by lia.
      rewrite !orb_false_l, orb_false_r, andb_true_r. f_equal. lia.
    + change 0xFFF with (Z.ones 12). rewrite Z.ones_spec_high by lia.
      rewrite andb_false_r. symmetry. by apply Hfb.
  - by apply ioctl_code_method.
Qed.

Lemma ioctl_code_fields_witness :
  Z.shiftr (ioctl_code 0x22 0x801 3 2) 16 = 0x22
  ∧ Z.land (Z.shiftr (ioctl_code 0x22 0x801 3 2) 14) 3 = 2
  ∧ Z.land (Z.shiftr (ioctl_code 0x22 0x801 3 2) 2) 0xFFF = 0x801
  ∧ Z.land (ioctl_code 0x22 0x801 3 2) 3 = 3.
Proof. apply (ioctl_code_fields 0x22 0x801 3 2); lia. Defined.

(** ** The string index *)

Lemma add_tokens_lookup (c : Z) (tokens : list (list Z))
    (idx : gmap (list Z) (gset Z)) (token : list Z) :
  foldl (add_token c) idx tokens !! token
  = if bool_decide (token ∈ tokens)
    then Some (default ∅ (idx !! token) ∪ {[c]})
    else idx !! token.
Proof.
  revert idx. induction tokens as [|t tokens IH]; intros idx.
  - by rewrite bool_decide_eq_false_2 by apply not_elem_of_nil.
  - cbn [foldl]. rewrite IH. unfold add_token.
    destruct (decide (token = t)) as [-> | Hne].
    + rewrite lookup_insert_eq. cbn [default].
      rewrite (bool_decide_eq_true_2 (t ∈ t :: tokens)) by apply list_elem_of_here.
      destruct (bool_decide (t ∈ tokens)); [| done].
      f_equal. unfold id. by rewrite <- (assoc_L (∪)), (idemp_L (∪) {[c]}).
    + rewrite lookup_insert_ne by done.
      destruct (decide (token ∈ tokens)) as [Hin | Hnin].
      * rewrite !bool_decide_eq_true_2; [done | by apply list_elem_of_further | done].
      * rewrite !bool_decide_eq_false_2; [done | | done].
        by intros [? | ?]%elem_of_cons.
Qed.

(** X2: [string_appearance] puts the counter into the position set of every
    token of [s.split(' ')], keeps what those sets held, and leaves the
    other tokens, the ledger and the counter alone. *)
Theorem string_appearance_tokens (s : list Z) (self : QlOsUtils) (token : list Z) :
  appeared_strings (string_appearance s self) !! token
  = (if bool_decide (token ∈ Py.split 32 s)
     then Some (default ∅ (appeared_strings self !! token)
                ∪ {[syscalls_counter self]})
     else appeared_strings self !! token)
  ∧ syscalls (string_appearance s self) = syscalls self
  ∧ syscalls_counter (string_appearance s self) = syscalls_counter self.
Proof. split; [apply add_tokens_lookup | done]. Qed.

(** The tokens of a text: [split] never yields an empty list, its pieces
    hold no separator, and joined by the separator they give the text
    back. *)
Lemma split_join (sep : Z) (s : list Z) :
  Py.split sep s ≠ []
  ∧ Forall (λ token, sep ∉ token) (Py.split sep s)
  ∧ join [sep] (Py.split sep s) = s.
Proof.
  induction s as [|c s (Hne & Hall & Hjoin)].
  - split; [done |]. split; [| done]. repeat constructor. apply not_elem_of_nil.
  - cbn [Py.split]. destruct (Z.eqb_spec c sep) as [-> | Hc].
    + split; [done |]. split.
      * constructor; [apply not_elem_of_nil | done].
      * destruct (Py.split sep s) as [|t ts] eqn:E; [done |].
        cbn [join app] in *. by rewrite Hjoin.
    + destruct (Py.split sep s) as [|t ts] eqn:E; [done |].
      split; [done |]. split.
      * apply Forall_cons in Hall as [Ht Hts]. constructor; [| done].
        rewrite not_elem_of_cons. split; [congruence | done].
      * destruct ts as [|t' ts]; cbn [join app] in *; by rewrite Hjoin.
Qed.
(** ** The ledger over time *)

Lemma ledger_ok_record (self : QlOsUtils) (c : api_call) :
  ledger_ok self → ledger_ok (record self c).
Proof.
  intros (Hc & Hcalls & Hstr). split; [simpl; lia |]. split.
  - intros name recs. unfold record, _call_api. cbn [syscalls syscalls_counter].
    rewrite lookup_insert. case_decide as Hname.
    + intros [= <-]. subst name.
      destruct (syscalls self !! strip_hook (c_name c)) as [old|] eqn:Hold;
        cbn [default].
      * destruct (Hcalls _ _ Hold) as [Hpos Hinc]. split.
        -- intros r [Hr | ->%list_elem_of_singleton]%elem_of_app.
           ++ specialize (Hpos r Hr). lia.
           ++ simpl. lia.
        -- intros i j ri rj Hi Hj Hij.
           apply lookup_snoc_Some in Hi as [[Hil Hi] | [Hil <-]];
             apply lookup_snoc_Some in Hj as [[Hjl Hj] | [Hjl <-]].
           ++ by apply (Hinc i j).
           ++ simpl. apply list_elem_of_lookup_2 in Hi.
              specialize (Hpos ri Hi). lia.
           ++ lia.
           ++ lia.
      * split.
        -- intros r ->%list_elem_of_singleton. simpl. lia.
        -- intros [|i] [|j] ri rj Hi Hj Hij; try lia; by destruct j.
    + intros Hrecs. destruct (Hcalls _ _ Hrecs) as [Hpos Hinc]. split; [| done].
      intros r Hr. specialize (Hpos r Hr). lia.
  - intros token ps Hps p Hp. cbn [appeared_strings record _call_api] in Hps.
    specialize (Hstr token ps Hps p Hp). simpl. lia.
Qed.

Lemma ledger_ok_string (self : QlOsUtils) (s : list Z) :
  ledger_ok self → ledger_ok (string_appearance s self).
Proof.
  intros (Hc & Hcalls & Hstr). split; [done |]. split; [done |].
  intros token ps Hps p Hp.
  pose proof (add_tokens_lookup (syscalls_counter self) (Py.split 32 s)
                (appeared_strings self) token) as Hlook.
  change (foldl _ _ _) with (appeared_strings (string_appearance s self)) in Hlook.
  rewrite Hps in Hlook. cbn [syscalls_counter string_appearance].
  case_bool_decide.
  - injection Hlook as ->. apply elem_of_union in Hp as [Hp | ->%elem_of_singleton].
    + destruct (appeared_strings self !! token) as [old|] eqn:Hold;
        [by apply (Hstr token old) | by apply elem_of_empty in Hp].
    + lia.
  - by apply (Hstr token ps).
Qed.

(** X3: Whatever calls are recorded, strings seen and resets done, starting
    from a fresh [QlOsUtils]: the positions in the ledger lie below the
    counter and grow along the list of every name, and the positions in
    the string index do not exceed the counter. *)
Theorem ledger_invariant (ops : list ledger_op) :
  ledger_ok (foldl apply_op init ops).
Proof.
  assert (ledger_ok init) as Hinit.
  { split; [done |]. split; intros ? ? Hl; cbn in Hl; by rewrite lookup_empty in Hl. }
  revert Hinit. generalize init. induction ops as [|op ops IH]; intros st Hst; [done |].
  cbn [foldl]. apply IH. destruct op as [c | s |]; cbn [apply_op].
  - by apply ledger_ok_record.
  - by apply ledger_ok_string.
  - split; [done |]. split; intros ? ? Hl; cbn in Hl; by rewrite lookup_empty in Hl.
Qed.
(** ** Variadic parameters *)

Lemma decimal_value_snoc (ds : list Z) (d : Z) :
  decimal_value (ds ++ [d]) = 10 * decimal_value ds + (d - 48).
Proof. unfold decimal_value. by rewrite foldl_app. Qed.

Lemma digits_from_value (fuel : nat) :
  ∀ n acc, 0 <= n < 2 ^ Z.of_nat fuel →
           ∃ ds, digits_from fuel n acc = ds ++ acc ∧ decimal_value ds = n.
Proof.
  induction fuel as [|fuel IH]; intros n acc Hn.
  - exists []. split; [done |]. change (2 ^ Z.of_nat 0) with 1 in Hn.
    unfold decimal_value. simpl. lia.
  - cbn [digits_from]. destruct (Z.eqb_spec (n / 10) 0) as [Hz | Hnz].
    + exists [48 + n mod 10]. split; [done |].
      unfold decimal_value. cbn [foldl].
      pose proof (Z.div_mod n 10). lia.
    + destruct (IH (n / 10) ((48 + n mod 10) :: acc)) as (ds & Heq & Hval).
      { rewrite Nat2Z.inj_succ, Z.pow_succ_r in Hn by lia.
        split; [apply Z.div_pos; lia |].
        apply Z.div_lt_upper_bound; lia. }
      exists (ds ++ [48 + n mod 10]). split.
      * by rewrite Heq, <- app_assoc.
      * rewrite decimal_value_snoc, Hval.
        pose proof (Z.div_mod n 10). lia.
Qed.

(** [int(str(n)) == n] for [n] that is not negative. *)
Lemma py_str_int_value (n : Z) : 0 <= n → decimal_value (py_str_int n) = n.
Proof.
  intros Hn. unfold py_str_int. rewrite (proj2 (Z.ltb_ge n 0)) by lia.
  destruct (digits_from_value (S (Z.to_nat (Z.log2 n))) n []) as (ds & Heq & Hval).
  - split; [done |]. rewrite Nat2Z.inj_succ, Z2Nat.id by apply Z.log2_nonneg.
    destruct (Z.eq_dec n 0) as [-> | Hne]; [done |].
    apply Z.log2_spec. lia.
  - by rewrite Heq, app_nil_r.
Qed.

Lemma ellipsis_name_inj (i j : Z) :
  0 <= i → 0 <= j → ellipsis_name i = ellipsis_name j → i = j.
Proof.
  intros Hi Hj Heq. apply app_inv_head in Heq.
  rewrite <- (py_str_int_value i Hi), <- (py_str_int_value j Hj). by rewrite Heq.
Qed.

Lemma startswith_app (p s : list Z) : Py.startswith p (p ++ s) = true.
Proof.
  induction p as [|c p IH]; [by destruct s |].
  cbn [app Py.startswith]. by rewrite Z.eqb_refl, IH.
Qed.

Lemma ellipsis_untouched (args : list pyval) :
  ∀ (start : Z) (m : gmap (list Z) pyval) (name : list Z),
    (∀ k : nat, (k < length args)%nat → name ≠ ellipsis_name (start + Z.of_nat k)) →
    foldl (λ m ia, <[ellipsis_name ia.1 := ia.2]> m) m (enumerate start args) !! name
    = m !! name.
Proof.
  induction args as [|a args IH]; intros start m name Hname; [done |].
  cbn [enumerate foldl]. rewrite IH.
  - cbn [fst snd]. rewrite lookup_insert_ne; [done |].
    intros Heq. apply (Hname O); [cbn; lia |]. by rewrite Z.add_0_r.
  - intros k Hk Heq. apply (Hname (S k)); [cbn; lia |].
    rewrite Heq. f_equal. lia.
Qed.

Lemma ellipsis_present (args : list pyval) :
  ∀ (start : Z) (m : gmap (list Z) pyval) (k : nat) (a : pyval),
    0 <= start → args !! k = Some a →
    foldl (λ m ia, <[ellipsis_name ia.1 := ia.2]> m) m (enumerate start args)
      !! ellipsis_name (start + Z.of_nat k)
    = Some a.
Proof.
  induction args as [|b args IH]; intros start m k a Hs Hk; [done |].
  cbn [enumerate foldl]. destruct k as [|k]; cbn in Hk.
  - injection Hk as ->. rewrite ellipsis_untouched.
    + cbn [fst snd]. rewrite Z.add_0_r. apply lookup_insert_eq.
    + intros j _ Heq. apply ellipsis_name_inj in Heq; lia.
  - replace (start + Z.of_nat (S k)) with (start + 1 + Z.of_nat k) by lia.
    apply IH; [lia | done].
Qed.

(** X4: After [update_ellipsis(params, args)] the [k]-th variadic argument is
    found under the name [__qlva_k], and a name that does not start with
    [__qlva_] maps to what it mapped to before. *)
Theorem update_ellipsis_lookup (params : gmap (list Z) pyval) (args : list pyval) :
  (∀ (k : nat) a, args !! k = Some a →
     update_ellipsis params args !! ellipsis_name (Z.of_nat k) = Some a)
  ∧ (∀ name, Py.startswith ELLIPSIS_PREF name = false →
       update_ellipsis params args !! name = params !! name)
  ∧ (∀ name, (∀ k : nat, (k < length args)%nat → name ≠ ellipsis_name (Z.of_nat k)) →
       update_ellipsis params args !! name = params !! name).
Proof.
  unfold update_ellipsis. split; [| split].
  - intros k a Hk. by apply (ellipsis_present args 0 params k a).
  - intros name Hname. apply ellipsis_untouched. intros k _ ->.
    unfold ellipsis_name in Hname. by rewrite startswith_app in Hname.
  - intros name Hname. apply ellipsis_untouched. intros k Hk. by apply Hname.
Qed.

(** ** The call log *)

Section LogFacts.

Variable format_hex : Z → list Z.
Variable format_hex_padded : Z → Z → list Z.

Lemma assign_variadic (i : Z) (value : list Z) :
  __assign_arg (ellipsis_name i) value = value.
Proof. unfold __assign_arg, ellipsis_name. by rewrite startswith_app. Qed.

Lemma assign_named (name value : list Z) :
  name ≠ [] → Py.startswith ELLIPSIS_PREF name = false →
  __assign_arg name value = name ++ Py.str " = " ++ value.
Proof. intros Hne Hp. unfold __assign_arg. rewrite Hp. by destruct name. Qed.

Lemma assign_enumerated (values : list (list Z)) (start : Z) :
  (λ nv, __assign_arg nv.1 nv.2)
    <$> ((λ iv, (ellipsis_name iv.1, iv.2)) <$> enumerate start values)
  = values.
Proof.
  revert start. induction values as [|v values IH]; intros start; [done |].
  cbn [enumerate fmap list_fmap fst snd]. rewrite assign_variadic. f_equal.
  apply IH.
Qed.

(** X5: A call with named parameters followed by variadic ones is logged
    with [name = value] for the former and the bare value for the latter:
    the names that [update_ellipsis] generates never show. *)
Theorem print_function_variadic (debug : bool) (archbit address : Z)
    (fname : list Z) (named : list (list Z * list Z)) (values : list (list Z))
    (passthru : bool) :
  Forall (λ nv, nv.1 ≠ [] ∧ Py.startswith ELLIPSIS_PREF nv.1 = false) named →
  let pargs := named ++ ((λ iv, (ellipsis_name iv.1, iv.2)) <$> enumerate 0 values) in
  let shown := ((λ nv, nv.1 ++ Py.str " = " ++ nv.2) <$> named) ++ values in
  print_function format_hex format_hex_padded debug archbit address fname pargs
                 None passthru
  = (if debug then log_debug else log_info,
     (if debug
      then format_hex_padded (archbit / 4 + 2) address ++ Py.str ": " else [])
     ++ strip_hook fname ++ Py.str "(" ++ join (Py.str ", ") shown ++ Py.str ")"
     ++ (if passthru then Py.str " (PASSTHRU)" else [])).
Proof.
  intros Hnamed pargs shown. unfold print_function. subst pargs shown.
  rewrite fmap_app, assign_enumerated.
  replace ((λ nv, __assign_arg nv.1 nv.2) <$> named)
    with ((λ nv, nv.1 ++ Py.str " = " ++ nv.2) <$> named).
  - fold (strip_hook fname). by destruct debug.
  - apply Forall_fmap_ext_1. eapply Forall_impl; [exact Hnamed |].
    intros [n v] [Hne Hp]. symmetry. by apply assign_named.
Qed.

End LogFacts.
(** ** More on strings in guest memory *)

Section MoreStrings.

Context {C : Collaborators}.

#[local] Arguments Mem.byte_at : simpl never.

(** One byte on its own decodes to itself below [0x80] and to nothing
    from [0x80] on. *)
Lemma decode_single (b : Z) :
  Codec.decode_ignore [b] = if b <? 0x80 then [b] else [].
Proof. cbn [Codec.decode_ignore]. by repeat case_match. Qed.

(** [read_string] only reads. *)
Lemma read_string_loop_state (fuel : nat) :
  ∀ (a : Z) (t acc : list Z) (s s' : state) (o : outcome (list Z)),
    read_string_loop fuel a t acc s = (o, s') → s' = s.
Proof.
  induction fuel as [|fuel IH]; intros a t acc s s' o.
  - by intros [= _ <-].
  - cbn [read_string_loop]. rewrite bind_run, mem_read_run.
    case_bool_decide; [by intros [= _ <-] |]. apply IH.
Qed.

Lemma read_bytes (bs : list Z) :
  ∀ (a : Z) (fuel : nat) (acc : list Z) (s : state),
    0 ∉ bs →
    Mem.read (mem (ql s)) a (length bs + 1) = bs ++ [0] →
    (length bs < fuel)%nat →
    read_string_loop fuel a [0] acc s
    = (Return (acc ++ filter (λ b, b < 0x80) bs), s).
Proof.
  induction bs as [|b bs IH]; intros a fuel acc s Hz Hm Hf;
    (destruct fuel as [|fuel]; [cbn [length] in Hf; lia |]).
  - cbn in Hm. injection Hm as Hb.
    cbn [read_string_loop length]. rewrite bind_run, mem_read_run.
    cbn [Mem.read]. rewrite Hb. cbn. by rewrite app_nil_r.
  - apply not_elem_of_cons in Hz as [Hb0 Hz].
    cbn [length Nat.add Mem.read app] in Hm. injection Hm as Hb Hm.
    cbn [read_string_loop length]. rewrite bind_run, mem_read_run.
    cbn [Mem.read]. rewrite Hb, decode_single.
    change (Z.of_nat 1) with 1. rewrite filter_cons.
    destruct (Z.ltb_spec b 0x80) as [Hlt | Hge].
    + rewrite bool_decide_eq_false_2 by (intros [=]; lia).
      rewrite decide_True by done.
      rewrite (IH (a + 1) fuel (acc ++ [b]) s Hz Hm) by (cbn [length] in Hf; lia).
      by rewrite <- app_assoc.
    + rewrite bool_decide_eq_false_2 by done.
      rewrite decide_False by lia. rewrite app_nil_r.
      by rewrite (IH (a + 1) fuel acc s Hz Hm) by (cbn [length] in Hf; lia).
Qed.

(** X6: [read_cstring] on any bytes: what lies before the first zero byte is
    returned without the bytes from [0x80] on, which are dropped one by
    one, and that text is recorded. *)
Theorem read_cstring_bytes (bs : list Z) (address : Z) (fuel : nat) (s : state) :
  0 ∉ bs →
  Mem.read (mem (ql s)) address (length bs + 1) = bs ++ [0] →
  (length bs < fuel)%nat →
  let text := filter (λ b, b < 0x80) bs in
  read_cstring fuel address s
  = (Return text,
     {| ql := set_utils (string_appearance text (utils (ql s))) (ql s);
        trace := trace s |}).
Proof.
  intros Hz Hm Hf text. unfold read_cstring, read_string. rewrite bind_run.
  by rewrite (read_bytes bs address fuel [] s Hz Hm Hf).
Qed.

(** X7: Whatever the memory holds, a text that [read_wstring] returns has no
    null character, and reading it changes nothing but the string index. *)
Theorem read_wstring_no_nul (fuel : nat) (address : Z) (s s' : state)
    (text : list Z) :
  read_wstring fuel address s = (Return text, s') →
  (0 ∉ text)
  ∧ s' = {| ql := set_utils (string_appearance text (utils (ql s))) (ql s);
            trace := trace s |}.
Proof.
  unfold read_wstring, read_string. rewrite bind_run.
  destruct (read_string_loop fuel address [0; 0] [] s) as [[raw | e |] s1] eqn:Hloop;
    [| done | done].
  apply read_string_loop_state in Hloop as ->.
  intros [= <- <-]. split; [| done].
  rewrite replace_nul. intros [Hne _]%list_elem_of_filter. by apply Hne.
Qed.

End MoreStrings.
(** ** More on formatted output *)

Lemma split_prefix (c : Z) (pre rest : list Z) :
  c ∉ pre → Py.split c (pre ++ c :: rest) = pre :: Py.split c rest.
Proof.
  induction pre as [|x pre IH]; intros Hc.
  - cbn [app Py.split]. by rewrite Z.eqb_refl.
  - apply not_elem_of_cons in Hc as [Hx Hpre].
    cbn [app Py.split]. rewrite (proj2 (Z.eqb_neq x c)) by congruence.
    by rewrite IH.
Qed.

Lemma replace_prefix (c : Z) (old new pre rest : list Z) :
  c ∉ pre →
  Py.replace (c :: old) new (pre ++ rest) = pre ++ Py.replace (c :: old) new rest.
Proof.
  unfold Py.replace. induction pre as [|x pre IH]; intros Hc; [done |].
  apply not_elem_of_cons in Hc as [Hx Hpre].
  cbn [app Py.replace_from Py.startswith].
  rewrite (proj2 (Z.eqb_neq c x)) by done. cbn [andb]. by rewrite IH.
Qed.

(** A conversion [%s] is touched by neither of the two rewritings. *)
Lemma replace_keeps_percent_s (l : Z) (old new pre post : list Z) :
  l ≠ 115 → 37 ∉ pre → 37 ∉ post →
  Py.replace (37 :: l :: old) new (pre ++ 37 :: 115 :: post)
  = pre ++ 37 :: 115 :: post.
Proof.
  intros Hl Hpre Hpost. rewrite replace_prefix by done. f_equal.
  unfold Py.replace. cbn [Py.replace_from Py.startswith].
  rewrite Z.eqb_refl, (proj2 (Z.eqb_neq l 115)) by done.
  change (37 =? 115) with false. cbn [andb]. do 2 f_equal.
  by apply (replace_absent 37).
Qed.

Lemma count_split (c : Z) (s : list Z) :
  length (tail (Py.split c s)) = Py.count c s.
Proof.
  unfold Py.count. induction s as [|x s IH]; [done |].
  cbn [Py.split]. rewrite filter_cons.
  destruct (Z.eqb_spec x c) as [-> | Hx].
  - rewrite decide_True by done. cbn [tail length]. rewrite <- IH.
    destruct (Py.split c s) as [|t ts] eqn:E; [| done].
    by destruct (proj1 (split_join c s)).
  - rewrite decide_False by done. rewrite <- IH.
    by destruct (Py.split c s).
Qed.

Lemma encode_narrow_ascii (text : list Z) :
  Forall (λ c, 0 <= c < 128) text → Codec.encode Codec.utf_8 text = Some text.
Proof.
  induction 1 as [|c text Hc _ IH]; [done |].
  cbn [Codec.encode Codec.encode_char]. rewrite IH.
  unfold Codec.utf8_char. by rewrite (proj2 (Z.ltb_lt c 0x80)) by lia.
Qed.

Section MorePrintf.

Context {C : Collaborators}.

Lemma va_list_from_run (ptr : Z) (count : nat) :
  ∀ (i : Z) (s : state),
    va_list_from ptr i count s
    = (Return ((λ k : nat,
                  PyInt (unpack (Mem.read (mem (ql s))
                                   (ptr + (i + Z.of_nat k) * pointersize)
                                   (Z.to_nat pointersize))))
               <$> seq 0 count), s).
Proof.
  induction count as [|count IH]; intros i s; [done |].
  cbn [va_list_from]. rewrite bind_run, mem_read_run, bind_run, IH.
  cbn [ret seq]. rewrite fmap_cons, <- fmap_S_seq, <- list_fmap_compose.
  replace (i + Z.of_nat 0) with i by lia.
  apply (f_equal (λ l, (Return (_ :: l), s))). apply list_fmap_ext.
  intros _ k _. cbn [compose]. replace (i + 1 + Z.of_nat k) with (i + Z.of_nat (S k)) by lia.
  reflexivity.
Qed.

(** X8: [va_list] reads one word for every ['%'] of the format, the [k]-th
    at [ptr + k * pointersize], and changes nothing; the list has one
    entry for every piece that [__common_printf] inspects. *)
Theorem va_list_words (format : list Z) (ptr : Z) (s : state) :
  ∃ args,
    va_list format ptr s = (Return args, s)
    ∧ length args = Py.count 37 format
    ∧ length args = length (tail (Py.split 37 format))
    ∧ ∀ k : nat, (k < Py.count 37 format)%nat →
        args !! k = Some (PyInt (unpack (Mem.read (mem (ql s))
                                          (ptr + Z.of_nat k * pointersize)
                                          (Z.to_nat pointersize)))).
Proof.
  eexists. split; [apply va_list_from_run |].
  split; [by rewrite length_fmap, length_seq |].
  split; [by rewrite length_fmap, length_seq, count_split |].
  intros k Hk. rewrite list_lookup_fmap, lookup_seq_lt by done. reflexivity.
Qed.

Lemma deref_no_args (read : Z → M (list Z)) (fmtstr : list (list Z)) :
  ∀ (i : nat) (s : state),
    deref_strings read i fmtstr [] s
    = if existsb (Py.startswith (Py.str "s")) fmtstr
      then (Raise IndexError, s) else (Return [], s).
Proof.
  induction fmtstr as [|f fmtstr IH]; intros i s; [done |].
  cbn [deref_strings existsb].
  destruct (Py.startswith (Py.str "s") f); [done |]. apply IH.
Qed.

(** X9: A format with a piece that begins with [s] and no argument at all:
    [IndexError], from [sprintf] and from [printf] alike, before anything
    is read or written. *)
Theorem printf_missing_argument (fuel : nat) (buff : Z) (format : list Z)
    (wstring : bool) (s : state) :
  Exists (λ f, Py.startswith (Py.str "s") f = true) (tail (Py.split 37 format)) →
  __common_printf fuel format [] wstring s = (Raise IndexError, s)
  ∧ sprintf fuel buff format [] wstring s = (Raise IndexError, s)
  ∧ printf fuel format [] wstring s = (Raise IndexError, s).
Proof.
  intros Hex.
  assert (__common_printf fuel format [] wstring s = (Raise IndexError, s)) as Hc.
  { unfold __common_printf. rewrite bind_run, deref_no_args.
    replace (existsb _ _) with true; [done |].
    symmetry. apply existsb_exists. apply Exists_exists in Hex as (f & Hf & Hs).
    exists f. split; [by apply list_elem_of_In | done]. }
  split; [exact Hc |]. unfold sprintf, printf. by rewrite !bind_run, Hc.
Qed.

(** X10: A format with one conversion [%s]: the argument, a pointer, is
    replaced by the narrow string it points to before the text is
    formatted, the format itself goes to the formatter unchanged, and the
    string is recorded. *)
Theorem common_printf_string_argument (fuel : nat) (pre post text : list Z)
    (a : Z) (rest : list pyval) (s : state) :
  37 ∉ pre → 37 ∉ post →
  Forall (λ c, 1 <= c < 128) text →
  Mem.read (mem (ql s)) a (length text + 1) = text ++ [0] →
  (length text < fuel)%nat →
  let format := pre ++ Py.str "%s" ++ post in
  __common_printf fuel format (PyInt a :: rest) false s
  = (match py_format format (PyStr text :: rest) with
     | inl e => Raise e
     | inr out => Return out
     end,
     {| ql := set_utils (string_appearance text (utils (ql s))) (ql s);
        trace := trace s |}).
Proof.
  intros Hpre Hpost Hascii Hm Hf format. subst format.
  change (Py.str "%s" ++ post) with (37 :: 115 :: post).
  unfold __common_printf.
  rewrite (split_prefix 37 pre (115 :: post) Hpre).
  rewrite (split_absent 37 (115 :: post))
    by (rewrite not_elem_of_cons; by split).
  cbn [tail deref_strings]. change (Py.startswith (Py.str "s") (115 :: post)) with true.
  cbn iota. cbn [lookup list_lookup]. rewrite !bind_run.
  unfold read_cstring, read_string. rewrite bind_run.
  rewrite (read_narrow text a fuel [] s Hascii Hm Hf). cbn [app].
  rewrite bind_run. cbn [do_string_appearance]. unfold do_string_appearance.
  rewrite bind_run. cbn [get_ql put_ql ret]. cbn [deref_strings].
  change (Py.str "%llx") with (37 :: 108 :: Py.str "lx").
  change (Py.str "%p") with (37 :: 112 :: []).
  rewrite !replace_keeps_percent_s by done.
  cbn [insert list_insert]. by destruct (py_format _ _).
Qed.

(** X11: What [sprintf] writes for a format of ASCII characters without
    ['%'], [read_cstring] (or [read_wstring] for a wide one) reads back
    unchanged from the same address. *)
Theorem sprintf_read_back (fuel fuel' : nat) (buff : Z) (format : list Z)
    (wstring : bool) (s : state) :
  37 ∉ format →
  Forall (λ c, 1 <= c < 128) format →
  (length format < fuel')%nat →
  ∃ s1,
    sprintf fuel buff format [] wstring s = (Return (Z.of_nat (length format)), s1)
    ∧ (if wstring then read_wstring fuel' buff s1 else read_cstring fuel' buff s1)
      = (Return format,
         {| ql := set_utils (string_appearance format (utils (ql s1))) (ql s1);
            trace := trace s1 |}).
Proof.
  intros Hc Hascii Hf. unfold sprintf.
  rewrite bind_run, (common_printf_plain _ _ _ _ Hc).
  destruct wstring.
  - rewrite (encode_app _ format [0] _ [0; 0] (encode_wide_ascii format Hascii))
      by done.
    eexists. split; [reflexivity |].
    unfold read_wstring, read_string. rewrite bind_run.
    rewrite (read_wide format buff fuel' [] _ Hascii); [| | done].
    + cbn [app]. by rewrite (strip_wide format Hascii).
    + cbn [mem ql set_mem].
      replace (length (format ≫= λ c, [c; 0%Z]) + 2)%nat
        with (length ((format ≫= λ c, [c; 0]) ++ [0; 0]))
        by (rewrite length_app; done).
      apply read_write.
  - rewrite (encode_app _ format [0] format [0]); [| | done].
    + eexists. split; [reflexivity |].
      unfold read_cstring, read_string. rewrite bind_run.
      rewrite (read_narrow format buff fuel' [] _ Hascii); [done | | done].
      cbn [mem ql set_mem].
      replace (length format + 1)%nat with (length (format ++ [0]))
        by (rewrite length_app; done).
      apply read_write.
    + apply encode_narrow_ascii. eapply Forall_impl; [exact Hascii |].
      intros c Hr. cbn in Hr. lia.
Qed.

End MorePrintf.
(** ** GUIDs *)

Lemma from_bytes_big_snoc (b : list Z) (x : Z) :
  from_bytes_big (b ++ [x]) = from_bytes_big b * 256 + x.
Proof. unfold from_bytes_big. by rewrite foldl_app. Qed.

Lemma from_bytes_big_bound (b : list Z) :
  Forall (λ x, 0 <= x < 256) b → 0 <= from_bytes_big b < 256 ^ Z.of_nat (length b).
Proof.
  induction b as [|x b IH] using rev_ind; intros Hb; [done |].
  apply Forall_app in Hb as [Hb Hx]. apply Forall_inv in Hx. cbn beta in Hx.
  rewrite from_bytes_big_snoc, length_app, Nat2Z.inj_add, Z.pow_add_r by lia.
  specialize (IH Hb). cbn [length]. change (256 ^ Z.of_nat 1) with 256.
  remember (256 ^ Z.of_nat (length b)) as P. lia.
Qed.

(** [int.to_bytes] undoes [int.from_bytes]. *)
Lemma to_from_bytes_big (b : list Z) :
  Forall (λ x, 0 <= x < 256) b → to_bytes_big (length b) (from_bytes_big b) = b.
Proof.
  induction b as [|x b IH] using rev_ind; intros Hb; [done |].
  apply Forall_app in Hb as [Hb Hx]. apply Forall_inv in Hx. cbn beta in Hx.
  rewrite from_bytes_big_snoc, length_app, Nat.add_comm. cbn [length Nat.add to_bytes_big].
  rewrite Z.div_add_l, Z.div_small, Z.add_0_r by lia.
  rewrite Z.add_comm, Z.mod_add, Z.mod_small by lia.
  by rewrite IH.
Qed.

Lemma swap_le_involutive (b : list Z) : length b = 16%nat → swap_le (swap_le b) = b.
Proof.
  intros Hl. do 17 (destruct b as [|? b]; [done |]). done.
Qed.

Lemma swap_le_length (b : list Z) : length b = 16%nat → length (swap_le b) = 16%nat.
Proof.
  intros Hl. do 17 (destruct b as [|? b]; [done |]). done.
Qed.

Lemma swap_le_bytes (b : list Z) :
  length b = 16%nat → Forall (λ x, 0 <= x < 256) b →
  Forall (λ x, 0 <= x < 256) (swap_le b).
Proof.
  intros Hl Hb. do 16 (destruct b as [|? b]; [done |]). destruct b; [| done].
  unfold swap_le. cbn. rewrite !Forall_cons in Hb |- *. tauto.
Qed.

Section GuidFacts.

Context {C : Collaborators}.

(** X12: [read_guid] returns the UUID whose [bytes_le] are the sixteen bytes
    at [address], a number below [2^128], and changes nothing. *)
Theorem read_guid_bytes_le (address : Z) (s : state) :
  Forall (λ x, 0 <= x < 256) (Mem.read (mem (ql s)) address 16) →
  ∃ u,
    read_guid address s = (Return u, s)
    ∧ UUID_bytes_le u = Mem.read (mem (ql s)) address 16
    ∧ 0 <= u < 2 ^ 128.
Proof.
  intros Hb. set (b := Mem.read (mem (ql s)) address 16) in *.
  assert (length b = 16%nat) as Hl by done.
  exists (from_bytes_big (swap_le b)). split; [| split].
  - unfold read_guid. rewrite bind_run, mem_read_run. fold b.
    unfold UUID_of_bytes_le. by rewrite bool_decide_eq_true_2.
  - unfold UUID_bytes_le. rewrite <- (swap_le_length b Hl) at 1.
    rewrite to_from_bytes_big by (by apply swap_le_bytes).
    by apply swap_le_involutive.
  - pose proof (from_bytes_big_bound (swap_le b) (swap_le_bytes b Hl Hb)) as Hbound.
    rewrite (swap_le_length b Hl) in Hbound. exact Hbound.
Qed.

End GuidFacts.
(** ** The single-step loop *)

Section McuFacts.

Context {P : McuParts}.

(** X13: When the program counter already is at the end address, [run] takes
    no step; it leaves the machine [runable], also one that [stop] had
    halted before. *)
Theorem run_at_end (fuel : nat) (count end_ : option Z) (self : QlOsMcu core_t) :
  get_pc (core self) = end_address end_ →
  mcu_run (S fuel) count end_ self
  = Some (O, {| runable := true; core := core self |}).
Proof.
  intros Hpc. unfold mcu_run. fold (end_address end_). cbn [run_loop runable core].
  by rewrite Hpc, Z.eqb_refl.
Qed.

Lemma run_loop_bounded (end_ : Z) (fuel : nat) :
  ∀ (count : Z) (self : QlOsMcu core_t),
    1 <= count → (Z.to_nat count <= fuel)%nat →
    ∃ k self',
      run_loop fuel count end_ self = Some (k, self')
      ∧ (k <= Z.to_nat count)%nat
      ∧ ((k < Z.to_nat count)%nat →
         runable self' = false ∨ get_pc (core self') = end_).
Proof.
  induction fuel as [|fuel IH]; intros count self Hc Hf; [lia |].
  cbn [run_loop].
  destruct (runable self && negb (get_pc (core self) =? end_)) eqn:Hcond.
  - destruct (Z.eqb_spec (count - 1) 0) as [Hz | Hnz].
    + exists 1%nat, (mcu_step self). split; [done |]. split; lia.
    + destruct (IH (count - 1) (mcu_step self)) as (k & self' & Hrun & Hk & Hend);
        [lia | lia |].
      exists (S k), self'. rewrite Hrun. split; [done |]. split; [lia |].
      intros Hlt. apply Hend. lia.
  - exists O, self. split; [done |]. split; [lia |]. intros _.
    apply andb_false_iff in Hcond as [Hr | Hpc]; [by left | right].
    apply negb_false_iff in Hpc. by apply Z.eqb_eq.
Qed.

(** X14: With [count = n] for a positive [n], [run] ends after at most [n]
    steps; when it ends earlier, the machine was stopped or has reached
    the end address. *)
Theorem run_bounded (fuel : nat) (n : Z) (end_ : option Z)
    (self : QlOsMcu core_t) :
  1 <= n → (Z.to_nat n <= fuel)%nat →
  ∃ k self',
    mcu_run fuel (Some n) end_ self = Some (k, self')
    ∧ (k <= Z.to_nat n)%nat
    ∧ ((k < Z.to_nat n)%nat →
       runable self' = false ∨ get_pc (core self') = end_address end_).
Proof. intros Hn Hf. unfold mcu_run. by apply run_loop_bounded. Qed.

Lemma run_loop_unlimited (end_ : Z) (fuel : nat) :
  ∀ (count count' : Z) (self : QlOsMcu core_t),
    count <= 0 → count' <= 0 →
    run_loop fuel count end_ self = run_loop fuel count' end_ self.
Proof.
  induction fuel as [|fuel IH]; intros count count' self Hc Hc'; [done |].
  cbn [run_loop]. destruct (_ && _); [| done].
  rewrite (proj2 (Z.eqb_neq (count - 1) 0)), (proj2 (Z.eqb_neq (count' - 1) 0))
    by lia.
  by rewrite (IH (count - 1) (count' - 1)) by lia.
Qed.

(** X15: A [count] of zero, or a negative one, is no limit: [run] behaves as
    with [count=None]. *)
Theorem run_count_zero (fuel : nat) (n : Z) (end_ : option Z)
    (self : QlOsMcu core_t) :
  n <= 0 → mcu_run fuel (Some n) end_ self = mcu_run fuel None end_ self.
Proof. intros Hn. unfold mcu_run. by apply run_loop_unlimited. Qed.

(** X16: When the program counter is not at the end address, a first
    step during which [stop] is called is the last one, whatever [count]
    says. *)
Theorem run_stopped (fuel : nat) (count end_ : option Z) (self : QlOsMcu core_t) :
  let entry := {| runable := true; core := core self |} in
  get_pc (core self) ≠ end_address end_ →
  runable (mcu_step entry) = false →
  mcu_run (S (S fuel)) count end_ self = Some (1%nat, mcu_step entry).
Proof.
  intros entry Hpc Hstop. unfold mcu_run. fold (end_address end_). fold entry.
  cbn [run_loop]. cbn [runable core entry].
  rewrite (proj2 (Z.eqb_neq _ _) Hpc). cbn [negb andb].
  destruct (_ =? 0); [done |]. by rewrite Hstop.
Qed.

End McuFacts.
(** ** More on device requests *)

Section MoreRequests.

Context {W : wdk_const} {C : Collaborators}.

(** X17: A write request for which no WRITE routine is registered is turned
    down with [(False, None)]; nothing is allocated, written or run. *)
Theorem io_Write_unregistered (cfg : config) (in_buffer : list Z) (s : state) :
  ostype cfg = WINDOWS →
  MajorFunction (driver_object cfg) IRP_MJ_WRITE = 0 →
  io_Write cfg in_buffer s = (Return (false, None), s).
Proof.
  intros Hwin Hnull. unfold io_Write.
  by rewrite bool_decide_eq_true_2, Hnull by done.
Qed.

(** X18: Buffered I/O, which has precedence over direct I/O: three
    allocations, the input bytes copied into the system buffer, whose
    address goes into the IRP. *)
Theorem io_Write_buffered (cfg : config) (in_buffer : list Z) (s : state) :
  Z.land (device_flags cfg s) DO_BUFFERED_IO ≠ 0 →
  ∃ a_irp a_sl a_buf s1,
    io_Write_prepare cfg in_buffer s = (Return (a_irp, [a_irp; a_sl; a_buf]), s1)
    ∧ trace s1
      = trace s
        ++ [EAlloc (sizeof_IRP (by_archtype cfg)) a_irp;
            EAlloc (sizeof_IO_STACK_LOCATION (by_archtype cfg)) a_sl;
            EWrite a_sl (write_stack cfg in_buffer);
            EAlloc (len in_buffer) a_buf;
            EWrite a_buf in_buffer;
            EWrite a_irp
              (bytes_IRP (by_archtype cfg)
                 (with_SystemBuffer a_buf (with_irpstack a_sl IRP_new)))].
Proof.
  intros Hflag%Z.eqb_neq. unfold device_flags in Hflag.
  unfold io_Write_prepare. unfold mbind, M_bind, bind. simpl.
  rewrite Hflag. simpl. do 4 eexists. split; [reflexivity |]. simpl.
  by rewrite <- !app_assoc.
Qed.

(** X19: Direct I/O: four allocations, an MDL for a buffer of the input
    length; the only writes are the stack location, the MDL and the IRP,
    so the input bytes do not reach guest memory. *)
Theorem io_Write_direct (cfg : config) (in_buffer : list Z) (s : state) :
  Z.land (device_flags cfg s) DO_BUFFERED_IO = 0 →
  Z.land (device_flags cfg s) DO_DIRECT_IO ≠ 0 →
  ∃ a_irp a_sl a_buf a_mdl s1,
    io_Write_prepare cfg in_buffer s
    = (Return (a_irp, [a_irp; a_sl; a_buf; a_mdl]), s1)
    ∧ trace s1
      = trace s
        ++ [EAlloc (sizeof_IRP (by_archtype cfg)) a_irp;
            EAlloc (sizeof_IO_STACK_LOCATION (by_archtype cfg)) a_sl;
            EWrite a_sl (write_stack cfg in_buffer);
            EAlloc (len in_buffer) a_buf;
            EAlloc (sizeof_MDL (by_archtype cfg)) a_mdl;
            EWrite a_mdl
              (bytes_MDL (by_archtype cfg)
                 {| MappedSystemVa := POINTER_value (by_archtype cfg) a_buf;
                    StartVa := POINTER_value (by_archtype cfg) a_buf;
                    ByteOffset := 0;
                    ByteCount := len in_buffer |});
            EWrite a_irp
              (bytes_IRP (by_archtype cfg)
                 (with_MdlAddress a_mdl (with_irpstack a_sl IRP_new)))].
Proof.
  intros Hb%Z.eqb_eq Hd%Z.eqb_neq. unfold device_flags in Hb, Hd.
  unfold io_Write_prepare. unfold mbind, M_bind, bind. simpl.
  rewrite Hb, Hd. simpl. do 5 eexists. split; [reflexivity |]. simpl.
  by rewrite <- !app_assoc.
Qed.

(** X20: Neither flag: three allocations, the input bytes copied into a
    buffer whose address goes into the user-buffer field of the IRP. *)
Theorem io_Write_neither (cfg : config) (in_buffer : list Z) (s : state) :
  Z.land (device_flags cfg s) DO_BUFFERED_IO = 0 →
  Z.land (device_flags cfg s) DO_DIRECT_IO = 0 →
  ∃ a_irp a_sl a_buf s1,
    io_Write_prepare cfg in_buffer s = (Return (a_irp, [a_irp; a_sl; a_buf]), s1)
    ∧ trace s1
      = trace s
        ++ [EAlloc (sizeof_IRP (by_archtype cfg)) a_irp;
            EAlloc (sizeof_IO_STACK_LOCATION (by_archtype cfg)) a_sl;
            EWrite a_sl (write_stack cfg in_buffer);
            EAlloc (len in_buffer) a_buf;
            EWrite a_buf in_buffer;
            EWrite a_irp
              (bytes_IRP (by_archtype cfg)
                 (with_UserBuffer a_buf (with_irpstack a_sl IRP_new)))].
Proof.
  intros Hb%Z.eqb_eq Hd%Z.eqb_eq. unfold device_flags in Hb, Hd.
  unfold io_Write_prepare. unfold mbind, M_bind, bind. simpl.
  rewrite Hb, Hd. simpl. do 4 eexists. split; [reflexivity |]. simpl.
  by rewrite <- !app_assoc.
Qed.

End MoreRequests.
Section RequestTraces.

Context {W : wdk_const} {C : Collaborators}.

(** X21: The IOCTL of every method starts with the same five allocations; the
    stack location carries the control code, both lengths and the address
    of the input buffer, and a major function code of zero; the direct
    methods add a buffer of the output size and an MDL that describes
    it; METHOD_NEITHER puts the output buffer into the user-buffer field
    of the IRP. *)
Theorem ioctl_layout (cfg : config) (devicetype function ctl_method access
    output_buffer_size : Z) (in_buffer : list Z) (s : state) :
  let lay := by_archtype cfg in
  ∃ a_in a_out a_irp a_sl a_sys req s1,
    let common :=
      [EAlloc (len in_buffer) a_in;
       EWrite a_in in_buffer;
       EAlloc output_buffer_size a_out;
       EAlloc (sizeof_IRP lay) a_irp;
       EAlloc (sizeof_IO_STACK_LOCATION lay) a_sl;
       EWrite a_sl
         (bytes_IO_STACK_LOCATION lay
            {| sl_MajorFunction := 0;
               sl_Parameters :=
                 DeviceIoControl output_buffer_size (len in_buffer)
                   (ioctl_code devicetype function ctl_method access) a_in |});
       EAlloc (Z.max (len in_buffer) output_buffer_size) a_sys;
       EWrite a_sys in_buffer] in
    let irp :=
      with_SystemBuffer a_sys
        (if ctl_method =? METHOD_NEITHER
         then with_UserBuffer a_out (with_irpstack a_sl IRP_new)
         else with_irpstack a_sl IRP_new) in
    ioctl_prepare cfg
      ((devicetype, function, ctl_method, access), output_buffer_size, in_buffer) s
    = (Return req, s1)
    ∧ r_irp_addr req = a_irp
    ∧ r_system_buffer_addr req = a_sys
    ∧ r_output_buffer_addr req = a_out
    ∧ (is_direct ctl_method = false →
       trace s1 = trace s ++ common ++ [EWrite a_irp (bytes_IRP lay irp)]
       ∧ r_alloc_addr req = [a_in; a_out; a_irp; a_sl; a_sys]
       ∧ r_mdl req = None)
    ∧ (is_direct ctl_method = true →
       ∃ a_map a_mdl,
         let mdl := {| MappedSystemVa := POINTER_value lay a_map;
                       StartVa := POINTER_value lay a_map;
                       ByteOffset := 0;
                       ByteCount := output_buffer_size |} in
         trace s1
         = trace s ++ common
           ++ [EAlloc output_buffer_size a_map;
               EAlloc (sizeof_MDL lay) a_mdl;
               EWrite a_mdl (bytes_MDL lay mdl);
               EWrite a_irp (bytes_IRP lay (with_MdlAddress a_mdl irp))]
         ∧ r_alloc_addr req = [a_in; a_out; a_irp; a_sl; a_sys; a_map; a_mdl]
         ∧ r_mdl req = Some mdl).
Proof.
  intros lay. subst lay. unfold ioctl_prepare, is_direct.
  unfold mbind, M_bind, bind. simpl.
  destruct (_ || _).
  - simpl. do 7 eexists. split; [reflexivity |]. simpl.
    do 3 (split; [reflexivity |]). split; [intros [=] |]. intros _.
    do 2 eexists. rewrite <- !app_assoc. by repeat split.
  - simpl. do 7 eexists. split; [reflexivity |]. simpl.
    do 3 (split; [reflexivity |]). split; [| intros [=]]. intros _.
    rewrite <- !app_assoc. by repeat split.
Qed.

Lemma runs_app (a b : list event) : runs (a ++ b) = runs a ++ runs b.
Proof. apply omap_app. Qed.

Lemma runs_frees (l : list Z) : runs (EFree <$> l) = [].
Proof. induction l as [|a l IH]; [done |]. exact IH. Qed.

Lemma io_Write_prepare_quiet (cfg : config) (in_buffer : list Z) (s : state) :
  ∃ irp_addr alloc_addr s1 pre,
    io_Write_prepare cfg in_buffer s = (Return (irp_addr, alloc_addr), s1)
    ∧ trace s1 = trace s ++ pre
    ∧ allocated pre = alloc_addr ∧ freed pre = [] ∧ runs pre = []
    ∧ (3 <= length alloc_addr)%nat.
Proof.
  unfold io_Write_prepare. unfold mbind, M_bind, bind. simpl.
  destruct (negb _); [| destruct (negb _)];
    simpl; do 4 eexists; (split; [reflexivity |]); simpl;
    rewrite <- !app_assoc; (split; [reflexivity |]); repeat split; cbn; lia.
Qed.

Lemma ioctl_prepare_quiet (cfg : config) (params : Z * Z * Z * Z * Z * list Z)
    (s : state) :
  ∃ req s1 pre,
    ioctl_prepare cfg params s = (Return req, s1)
    ∧ trace s1 = trace s ++ pre
    ∧ allocated pre = r_alloc_addr req ∧ freed pre = [] ∧ runs pre = []
    ∧ (5 <= length (r_alloc_addr req))%nat.
Proof.
  destruct params as [[[[[devicetype function] ctl_method] access] size] buf].
  unfold ioctl_prepare. unfold mbind, M_bind, bind. simpl.
  destruct (_ || _);
    simpl; do 3 eexists; (split; [reflexivity |]); simpl;
    rewrite <- !app_assoc; (split; [reflexivity |]); repeat split; cbn; lia.
Qed.

Lemma ioctl_recover_trace (cfg : config) (req : ioctl_request) (s s' : state)
    (o : outcome ioctl_result) :
  ioctl_recover cfg req s = (o, s') →
  ∃ tr, trace s' = trace s ++ tr ∧ runs tr = [] ∧ allocated tr = [].
Proof.
  unfold ioctl_recover, read_irp. rewrite !bind_run, mem_read_run. cbn [ret].
  rewrite bind_run.
  assert (∀ l, ∃ tr, trace s ++ (EFree <$> l) = trace s ++ tr
                     ∧ runs tr = [] ∧ allocated tr = []) as Hfrees.
  { intros l. exists (EFree <$> l). split; [done |].
    split; [apply runs_frees | apply allocated_frees]. }
  assert (∃ tr, trace s = trace s ++ tr ∧ runs tr = [] ∧ allocated tr = [])
    as Hnone by (exists []; by rewrite app_nil_r).
  destruct (0 <=? _).
  - rewrite !bind_run.
    destruct (r_ctl_method req =? METHOD_BUFFERED);
      rewrite ?mem_read_run; cbn [ret];
      rewrite bind_run;
      (destruct (_ || _); [destruct (r_mdl req); [| by intros [= _ <-]] |]);
      rewrite ?mem_read_run; cbn [ret];
      destruct (r_ctl_method req =? METHOD_NEITHER);
      rewrite ?mem_read_run; cbn [ret];
      rewrite bind_run, free_all_run; intros [= _ <-]; apply Hfrees.
  - cbn [ret]. rewrite bind_run, free_all_run. intros [= _ <-]. apply Hfrees.
Qed.

(** X22: However a request ends, by a return or by an exception, the guest
    was entered once, at the routine registered for the request, if the
    request was dispatched, and not at all if it was turned down. *)
Theorem guest_entered_once (cfg : config) (in_buffer : list Z)
    (params : Z * Z * Z * Z * Z * list Z) (s : state) :
  (∀ o s', io_Write cfg in_buffer s = (o, s') →
     ∃ tr, trace s' = trace s ++ tr
           ∧ runs tr
             = if bool_decide (ostype cfg = WINDOWS)
                  && (MajorFunction (driver_object cfg) IRP_MJ_WRITE =? 0)
               then [] else [MajorFunction (driver_object cfg) IRP_MJ_WRITE])
  ∧ (∀ o s', ioctl cfg params s = (o, s') →
       ∃ tr, trace s' = trace s ++ tr
             ∧ runs tr
               = if bool_decide (ostype cfg = WINDOWS)
                    && negb (MajorFunction (driver_object cfg) IRP_MJ_DEVICE_CONTROL
                             =? 0)
                 then [MajorFunction (driver_object cfg) IRP_MJ_DEVICE_CONTROL]
                 else []).
Proof.
  split; intros o s'.
  - unfold io_Write. destruct (_ && _).
    + intros [= _ <-]. exists []. by rewrite app_nil_r.
    + destruct (io_Write_prepare_quiet cfg in_buffer s)
        as (irp_addr & alloc_addr & s1 & pre & Hprep & Htr & _ & _ & Hr & _).
      rewrite bind_run, Hprep. cbn iota beta. rewrite bind_run, try_run_run.
      destruct (run cfg _ (ql s1)).1 as [errno|].
      * destruct (verify_ret _ errno).
        -- rewrite io_Write_recover_run. intros [= _ <-]. cbn [trace].
           rewrite Htr, <- !app_assoc. eexists. split; [reflexivity |].
           by rewrite !runs_app, Hr, runs_frees.
        -- intros [= _ <-]. cbn [trace]. rewrite Htr, <- app_assoc.
           eexists. split; [reflexivity |]. by rewrite runs_app, Hr.
      * rewrite io_Write_recover_run. intros [= _ <-]. cbn [trace].
        rewrite Htr, <- !app_assoc. eexists. split; [reflexivity |].
        by rewrite !runs_app, Hr, runs_frees.
  - unfold ioctl. destruct (bool_decide _); cbn [andb].
    + destruct (_ =? 0); cbn [negb].
      * intros [= _ <-]. exists []. by rewrite app_nil_r.
      * destruct (ioctl_prepare_quiet cfg params s)
          as (req & s1 & pre & Hprep & Htr & _ & _ & Hr & _).
        rewrite bind_run, Hprep, bind_run, try_run_run.
        destruct (run cfg _ (ql s1)).1 as [errno|].
        -- destruct (verify_ret _ errno).
           ++ intros (tr & Htr' & Hr' & _)%ioctl_recover_trace.
              rewrite Htr'. cbn [trace]. rewrite Htr, <- !app_assoc.
              eexists. split; [reflexivity |]. by rewrite !runs_app, Hr, Hr'.
           ++ intros [= _ <-]. cbn [trace]. rewrite Htr, <- app_assoc.
              eexists. split; [reflexivity |]. by rewrite runs_app, Hr.
        -- intros (tr & Htr' & Hr' & _)%ioctl_recover_trace.
           rewrite Htr'. cbn [trace]. rewrite Htr, <- !app_assoc.
           eexists. split; [reflexivity |]. by rewrite !runs_app, Hr, Hr'.
    + intros [= _ <-]. exists []. by rewrite app_nil_r.
Qed.

(** X23: A fault that [verify_ret] does not let pass leaves the request by
    [UcError]: what the request allocated, three addresses at least for a
    write and five for an IOCTL, stays allocated, since nothing is
    freed. *)
Theorem fatal_fault_leaks (cfg : config) (in_buffer : list Z)
    (params : Z * Z * Z * Z * Z * list Z) (s : state) :
  (¬ (ostype cfg = WINDOWS ∧ MajorFunction (driver_object cfg) IRP_MJ_WRITE = 0) →
   ∃ irp_addr alloc_addr s1,
     io_Write_prepare cfg in_buffer s = (Return (irp_addr, alloc_addr), s1)
     ∧ (3 <= length alloc_addr)%nat
     ∧ ∀ errno,
         let r := run cfg (MajorFunction (driver_object cfg) IRP_MJ_WRITE) (ql s1) in
         r.1 = Some errno → verify_ret r.2 errno = false →
         ∃ s' tr,
           io_Write cfg in_buffer s = (Raise (UcError errno), s')
           ∧ trace s' = trace s ++ tr
           ∧ allocated tr = alloc_addr ∧ freed tr = []
           ∧ heap (ql s') = heap r.2)
  ∧ (ostype cfg = WINDOWS →
     MajorFunction (driver_object cfg) IRP_MJ_DEVICE_CONTROL ≠ 0 →
     ∃ req s1,
       ioctl_prepare cfg params s = (Return req, s1)
       ∧ (5 <= length (r_alloc_addr req))%nat
       ∧ ∀ errno,
           let r := run cfg (MajorFunction (driver_object cfg) IRP_MJ_DEVICE_CONTROL)
                        (ql s1) in
           r.1 = Some errno → verify_ret r.2 errno = false →
           ∃ s' tr,
             ioctl cfg params s = (Raise (UcError errno), s')
             ∧ trace s' = trace s ++ tr
             ∧ allocated tr = r_alloc_addr req ∧ freed tr = []
             ∧ heap (ql s') = heap r.2).
Proof.
  split.
  - intros Hreg.
    destruct (io_Write_prepare_quiet cfg in_buffer s)
      as (irp_addr & alloc_addr & s1 & pre & Hprep & Htr & Ha & Hf & _ & Hlen).
    exists irp_addr, alloc_addr, s1. split; [done |]. split; [done |].
    intros errno r Herr Hver. unfold io_Write.
    replace (bool_decide (ostype cfg = WINDOWS)
             && (MajorFunction (driver_object cfg) IRP_MJ_WRITE =? 0)) with false.
    + rewrite bind_run, Hprep. cbn iota beta. rewrite bind_run, try_run_run.
      fold r. rewrite Herr, Hver. do 2 eexists. split; [reflexivity |].
      cbn [trace ql]. rewrite Htr, <- app_assoc. split; [reflexivity |].
      rewrite allocated_app, freed_app, Ha, Hf. split; [apply app_nil_r |]. done.
    + symmetry. apply andb_false_iff.
      destruct (decide (ostype cfg = WINDOWS)) as [Hw | Hw].
      * right. apply Z.eqb_neq. intros Hz. by apply Hreg.
      * left. by apply bool_decide_eq_false_2.
  - intros Hwin Hreg.
    destruct (ioctl_prepare_quiet cfg params s)
      as (req & s1 & pre & Hprep & Htr & Ha & Hf & _ & Hlen).
    exists req, s1. split; [done |]. split; [done |].
    intros errno r Herr Hver. unfold ioctl.
    rewrite bool_decide_eq_true_2, (proj2 (Z.eqb_neq _ 0) Hreg) by done.
    rewrite bind_run, Hprep, bind_run, try_run_run.
    fold r. rewrite Herr, Hver. do 2 eexists. split; [reflexivity |].
    cbn [trace ql]. rewrite Htr, <- app_assoc. split; [reflexivity |].
    rewrite allocated_app, freed_app, Ha, Hf. split; [apply app_nil_r |]. done.
Qed.

End RequestTraces.
(** ** More runs on the sample machines *)

Module MoreRuns.

Import Sample Cases.

#[local] Existing Instance wdk.

Lemma update_ellipsis_lookup_witness :
  update_ellipsis {[Py.str "fmt" := PyInt 7]} [PyInt 1; PyStr (Py.str "x")]
    !! Py.str "__qlva_1" = Some (PyStr (Py.str "x"))
  ∧ update_ellipsis {[Py.str "fmt" := PyInt 7]} [PyInt 1; PyStr (Py.str "x")]
      !! Py.str "fmt" = Some (PyInt 7).
Proof.
  destruct (update_ellipsis_lookup {[Py.str "fmt" := PyInt 7]}
              [PyInt 1; PyStr (Py.str "x")]) as (Hk & Hn & _).
  split.
  - apply (Hk 1%nat). reflexivity.
  - rewrite Hn; [| reflexivity]. apply lookup_singleton_eq.
Defined.

Lemma print_function_variadic_witness :
  print_function no_hex no_hex_padded false 64 0x401000 (Py.str "hook_printf")
    [(Py.str "format", Py.str "x"); (Py.str "__qlva_0", Py.str "5")] None true
  = (log_info, Py.str "printf(format = x, 5) (PASSTHRU)").
Proof.
  apply (print_function_variadic no_hex no_hex_padded false 64 0x401000
           (Py.str "hook_printf") [(Py.str "format", Py.str "x")] [Py.str "5"] true).
  repeat constructor. discriminate.
Defined.

(** The UTF-8 bytes of "héllo": the two bytes of the accented letter are
    dropped. *)
Lemma read_cstring_bytes_witness :
  (@read_cstring echo64 8 0x100
     (start echo64 0x5000 [] [0x68; 0xC3; 0xA9; 0x6C; 0x6C; 0x6F; 0])).1
  = Return (Py.str "hllo").
Proof.
  rewrite (@read_cstring_bytes echo64 [0x68; 0xC3; 0xA9; 0x6C; 0x6C; 0x6F] 0x100 8
             (start echo64 0x5000 [] [0x68; 0xC3; 0xA9; 0x6C; 0x6C; 0x6F; 0])).
  - reflexivity.
  - rewrite !not_elem_of_cons. repeat split; (lia || apply not_elem_of_nil).
  - vm_compute. reflexivity.
  - vm_compute. lia.
Defined.

Lemma read_wstring_no_nul_witness :
  0 ∉ Py.str "ab".
Proof.
  apply (@read_wstring_no_nul echo64 3 0x100
           (start echo64 0x5000 [] [0x61; 0; 0x62; 0; 0; 0])
           (@read_wstring echo64 3 0x100
              (start echo64 0x5000 [] [0x61; 0; 0x62; 0; 0; 0])).2
           (Py.str "ab")).
  apply Runs.pair_by_fst. vm_compute. reflexivity.
Defined.

Lemma va_list_words_witness :
  ∃ args,
    (@va_list echo64 (Py.str "%d %s") 0x100
       (start echo64 0x5000 [] [1; 0; 0; 0; 0; 0; 0; 0; 2; 0; 0; 0; 0; 0; 0; 0])).1
    = Return args
    ∧ args !! 1%nat = Some (PyInt 2).
Proof.
  destruct (@va_list_words echo64 (Py.str "%d %s") 0x100
              (start echo64 0x5000 [] [1; 0; 0; 0; 0; 0; 0; 0; 2; 0; 0; 0; 0; 0; 0; 0]))
    as (args & Hrun & _ & _ & Hk).
  exists args. split; [by rewrite Hrun |].
  rewrite (Hk 1%nat) by (vm_compute; lia). vm_compute. reflexivity.
Defined.

Lemma printf_missing_argument_witness :
  @sprintf echo64 0 0x200 (Py.str "name=%s") [] false (start echo64 0x5000 [] [])
  = (Raise IndexError, start echo64 0x5000 [] []).
Proof.
  apply (@printf_missing_argument echo64 0 0x200 (Py.str "name=%s") false
           (start echo64 0x5000 [] [])).
  apply Exists_cons_hd. reflexivity.
Defined.

Lemma common_printf_string_argument_witness :
  (@__common_printf echo64 4 (Py.str "<%s>") [PyInt 0x100] false
     (start echo64 0x5000 [] [0x61; 0x62; 0])).1
  = Return (Py.str "<ab>").
Proof.
  change (Py.str "<%s>") with (Py.str "<" ++ Py.str "%s" ++ Py.str ">").
  rewrite (@common_printf_string_argument echo64 4 (Py.str "<") (Py.str ">")
             (Py.str "ab") 0x100 [] (start echo64 0x5000 [] [0x61; 0x62; 0])).
  - reflexivity.
  - compute_done.
  - compute_done.
  - change (Py.str "ab") with [97; 98]. repeat (constructor; [lia |]). constructor.
  - vm_compute. reflexivity.
  - vm_compute. lia.
Defined.

Lemma sprintf_read_back_witness :
  ∃ s1,
    @sprintf echo64 0 0x200 (Py.str "abc") [] true (start echo64 0x5000 [] [])
    = (Return 3, s1)
    ∧ (@read_wstring echo64 4 0x200 s1).1 = Return (Py.str "abc").
Proof.
  destruct (@sprintf_read_back echo64 0 4 0x200 (Py.str "abc") true
              (start echo64 0x5000 [] [])) as (s1 & Hs & Hr).
  - change (Py.str "abc") with [97; 98; 99].
    rewrite !not_elem_of_cons. repeat split; (lia || apply not_elem_of_nil).
  - change (Py.str "abc") with [97; 98; 99].
    repeat (constructor; [lia |]). constructor.
  - vm_compute. lia.
  - exists s1. split; [exact Hs |]. by rewrite Hr.
Defined.

Lemma read_guid_bytes_le_witness :
  ∃ u,
    (@read_guid echo64 0x100
       (start echo64 0x5000 []
          [0x33; 0x22; 0x11; 0x00; 0x55; 0x44; 0x77; 0x66;
           0x88; 0x99; 0xAA; 0xBB; 0xCC; 0xDD; 0xEE; 0xFF])).1
    = Return u
    ∧ u = 0x00112233445566778899AABBCCDDEEFF.
Proof.
  destruct (@read_guid_bytes_le echo64 0x100
              (start echo64 0x5000 []
                 [0x33; 0x22; 0x11; 0x00; 0x55; 0x44; 0x77; 0x66;
                  0x88; 0x99; 0xAA; 0xBB; 0xCC; 0xDD; 0xEE; 0xFF]))
    as (u & Hrun & _ & _).
  - compute_done.
  - exists u. split; [by rewrite Hrun |].
    apply (f_equal fst) in Hrun. vm_compute in Hrun. by injection Hrun.
Defined.

Lemma run_at_end_witness :
  @mcu_run (counter_mcu 0) 1 (Some 5) (Some 0x1000)
           {| runable := false; core := 0x1001 |}
  = Some (O, {| runable := true; core := 0x1001 |}).
Proof.
  apply (@run_at_end (counter_mcu 0) 0 (Some 5) (Some 0x1000)
           {| runable := false; core := 0x1001 |}).
  reflexivity.
Defined.

Lemma run_bounded_witness :
  ∃ k self',
    @mcu_run (counter_mcu 0) 3 (Some 3) None {| runable := true; core := 0x1001 |}
    = Some (k, self')
    ∧ (k <= 3)%nat.
Proof.
  destruct (@run_bounded (counter_mcu 0) 3 3 None
              {| runable := true; core := 0x1001 |})
    as (k & self' & Hrun & Hk & _); [lia | vm_compute; lia |].
  exists k, self'. split; [exact Hrun | exact Hk].
Defined.

Lemma run_count_zero_witness :
  @mcu_run (counter_mcu 0) 4 (Some 0) (Some 0x1004)
           {| runable := true; core := 0x1001 |}
  = @mcu_run (counter_mcu 0) 4 None (Some 0x1004)
             {| runable := true; core := 0x1001 |}.
Proof.
  apply (@run_count_zero (counter_mcu 0) 4 0 (Some 0x1004)
           {| runable := true; core := 0x1001 |}).
  lia.
Defined.

Lemma run_stopped_witness :
  @mcu_run (counter_mcu 0x1003) 2 None None {| runable := true; core := 0x1001 |}
  = Some (1%nat, {| runable := false; core := 0x1003 |}).
Proof.
  apply (@run_stopped (counter_mcu 0x1003) 0 None None
           {| runable := true; core := 0x1001 |}).
  - vm_compute. discriminate.
  - reflexivity.
Defined.

Lemma io_Write_unregistered_witness :
  @io_Write wdk echo64 (windows64 no_dispatch) (Py.str "PAYLOAD")
            (start echo64 0x5000 [] buffered_device)
  = (Return (false, None), start echo64 0x5000 [] buffered_device).
Proof.
  apply (@io_Write_unregistered wdk echo64 (windows64 no_dispatch)
           (Py.str "PAYLOAD") (start echo64 0x5000 [] buffered_device));
    reflexivity.
Defined.

Lemma io_Write_buffered_witness :
  ∃ a_irp a_sl a_buf,
    (@io_Write_prepare wdk echo64 (windows64 all_dispatch) (Py.str "PAYLOAD")
       (start echo64 0x5000 [] buffered_device)).1
    = Return (a_irp, [a_irp; a_sl; a_buf]).
Proof.
  destruct (@io_Write_buffered wdk echo64 (windows64 all_dispatch)
              (Py.str "PAYLOAD") (start echo64 0x5000 [] buffered_device))
    as (a_irp & a_sl & a_buf & s1 & Hprep & _).
  - vm_compute. discriminate.
  - exists a_irp, a_sl, a_buf. by rewrite Hprep.
Defined.

Lemma io_Write_direct_witness :
  ∃ a_irp a_sl a_buf a_mdl,
    (@io_Write_prepare wdk echo64 (windows64 all_dispatch) (Py.str "PAYLOAD")
       (start echo64 0x5000 [] direct_device)).1
    = Return (a_irp, [a_irp; a_sl; a_buf; a_mdl]).
Proof.
  destruct (@io_Write_direct wdk echo64 (windows64 all_dispatch)
              (Py.str "PAYLOAD") (start echo64 0x5000 [] direct_device))
    as (a_irp & a_sl & a_buf & a_mdl & s1 & Hprep & _).
  - vm_compute. reflexivity.
  - vm_compute. discriminate.
  - exists a_irp, a_sl, a_buf, a_mdl. by rewrite Hprep.
Defined.

Lemma io_Write_neither_witness :
  ∃ a_irp a_sl a_buf,
    (@io_Write_prepare wdk echo64 (windows64 all_dispatch) (Py.str "PAYLOAD")
       (start echo64 0x5000 [] plain_device)).1
    = Return (a_irp, [a_irp; a_sl; a_buf]).
Proof.
  destruct (@io_Write_neither wdk echo64 (windows64 all_dispatch)
              (Py.str "PAYLOAD") (start echo64 0x5000 [] plain_device))
    as (a_irp & a_sl & a_buf & s1 & Hprep & _).
  - vm_compute. reflexivity.
  - vm_compute. reflexivity.
  - exists a_irp, a_sl, a_buf. by rewrite Hprep.
Defined.

Lemma ioctl_layout_witness :
  ∃ req,
    (@ioctl_prepare wdk echo64 (windows64 all_dispatch) (request 1)
       (start echo64 0x5000 [] buffered_device)).1
    = Return req
    ∧ length (r_alloc_addr req) = 7%nat.
Proof.
  destruct (@ioctl_layout wdk echo64 (windows64 all_dispatch) 0x22 0x801 1 0 8
              (Py.str "PAY") (start echo64 0x5000 [] buffered_device))
    as (a_in & a_out & a_irp & a_sl & a_sys & req & s1 & Hprep & _ & _ & _ & _ & Hd).
  destruct Hd as (a_map & a_mdl & _ & Hl & _); [reflexivity |].
  exists req. split; [unfold request; by rewrite Hprep | by rewrite Hl].
Defined.

Lemma guest_entered_once_witness :
  ∃ tr,
    trace (@io_Write wdk crashing64 (windows64 all_dispatch) (Py.str "PAYLOAD")
             (start crashing64 0x5000 [] buffered_device)).2
    = [] ++ tr
    ∧ runs tr = [0x401000].
Proof.
  destruct (@guest_entered_once wdk crashing64 (windows64 all_dispatch)
              (Py.str "PAYLOAD") (request 0)
              (start crashing64 0x5000 [] buffered_device)) as [Hw _].
  destruct (Hw _ _ (surjective_pairing _)) as (tr & Htr & Hruns).
  exists tr. split; [exact Htr | exact Hruns].
Defined.

Lemma fatal_fault_leaks_witness :
  ∃ s', @io_Write wdk crashing64 (windows64 all_dispatch) (Py.str "PAYLOAD")
                  (start crashing64 0x5000 [] buffered_device)
        = (Raise (UcError 1), s')
        ∧ freed (trace s') = [].
Proof.
  destruct (@fatal_fault_leaks wdk crashing64 (windows64 all_dispatch)
              (Py.str "PAYLOAD") (request 0)
              (start crashing64 0x5000 [] buffered_device)) as [Hw _].
  destruct Hw as (irp_addr & alloc_addr & s1 & Hprep & _ & Hfault).
  - intros [_ Hnull]. vm_compute in Hnull. discriminate Hnull.
  - apply Runs.pair_parts in Hprep as [_ ->].
    destruct (Hfault 1) as (s' & tr & Hrun & Htr & _ & Hf & _);
      [vm_compute; reflexivity | vm_compute; reflexivity |].
    exists s'. split; [exact Hrun |]. rewrite Htr. exact Hf.
Defined.

End MoreRuns.
